(** * myDataLib: the data-cleaning pipeline of [package/cleaning.py]

    A shallow embedding of [cleaning.py] and of [import_data] from
    [package/io.py].  The Python code is a thin layer over pandas, numpy
    and scikit-learn; the library calls the functions rely on are modelled
    next to the function that makes them, each with a comment saying which
    library behaviour it stands for.

    Conventions of the model:
    - a pandas [DataFrame] is an ordered list of named columns, rows being
      positions in the columns;
    - a value is a number, a text or the missing marker (pandas' [NaN] /
      [None]); numbers are exact reals, so rounding of 64-bit floats and
      the infinities are not modelled;
    - a column holding at least one text has pandas' [object] dtype, any
      other column a numeric dtype;
    - text is ASCII;
    - a Python exception is a value [Raise e] of the [result] type, and
      the orchestrator [clean_data] additionally records what it prints
      and which helper it invokes. *)

From Stdlib Require Import Reals Lra List String Ascii Bool Arith Lia Sorted.
Import ListNotations.

Local Open Scope string_scope.
Local Open Scope list_scope.

(** ** Exceptions and results *)

Inductive exn : Type :=
| ValueError
| KeyError
| TypeError
| AttributeError
| EmptyDataError
| ParserError
| OtherError.

Inductive result (A : Type) : Type :=
| Ok (a : A)
| Raise (e : exn).

Arguments Ok {A} a.
Arguments Raise {A} e.

Definition bind {A B : Type} (r : result A) (k : A -> result B) : result B :=
  match r with
  | Ok a => k a
  | Raise e => Raise e
  end.

Notation "x <- e ;; k" := (bind e (fun x => k))
  (at level 61, e at next level, right associativity).

(** ** Tables *)

Inductive cell : Type :=
| Num (x : R)
| Text (s : string)
| NaN.

Definition column : Type := list cell.

Definition DataFrame : Type := list (string * column).

Definition isnull (c : cell) : bool :=
  match c with
  | NaN => true
  | _ => false
  end.

Definition is_text (c : cell) : bool :=
  match c with
  | Text _ => true
  | _ => false
  end.

Definition column_names (df : DataFrame) : list string := map fst df.

(** [df[name]]: the column, or [KeyError]. *)
Fixpoint getitem (df : DataFrame) (name : string) : result column :=
  match df with
  | [] => Raise KeyError
  | (n, c) :: rest => if String.eqb n name then Ok c else getitem rest name
  end.

(** [df[name] = col]: replaces the column, or adds it after the last one. *)
Fixpoint setitem (df : DataFrame) (name : string) (col : column) : DataFrame :=
  match df with
  | [] => [(name, col)]
  | (n, c) :: rest =>
      if String.eqb n name then (n, col) :: rest
      else (n, c) :: setitem rest name col
  end.

(** [df[names]] for a list of names: the selected columns in the order of
    [names], or [KeyError] when one of them is absent. *)
Fixpoint getitems (df : DataFrame) (names : list string) : result (list column) :=
  match names with
  | [] => Ok []
  | n :: rest =>
      c <- getitem df n ;;
      cs <- getitems df rest ;;
      Ok (c :: cs)
  end.

(** [df[names] = X] for a two-dimensional array [X] given by its columns:
    pandas refuses ([ValueError]) an array that has not one column per
    name. *)
Fixpoint setitems (df : DataFrame) (names : list string) (X : list column)
  : result DataFrame :=
  match names, X with
  | [], [] => Ok df
  | n :: names', c :: X' => setitems (setitem df n c) names' X'
  | _, _ => Raise ValueError
  end.

(** Boolean indexing [xs[mask]]. *)
Fixpoint compress {A : Type} (mask : list bool) (xs : list A) : list A :=
  match mask, xs with
  | b :: mask', x :: xs' =>
      if b then x :: compress mask' xs' else compress mask' xs'
  | _, _ => []
  end.

(** [df[mask]]: the rows where [mask] holds, in every column. *)
Definition take_rows (mask : list bool) (df : DataFrame) : DataFrame :=
  map (fun nc => (fst nc, compress mask (snd nc))) df.

Definition nrows (df : DataFrame) : nat :=
  match df with
  | [] => 0
  | (_, c) :: _ => List.length c
  end.

(** ** Text *)

Definition in_range (lo hi : nat) (c : ascii) : bool :=
  (lo <=? nat_of_ascii c)%nat && (nat_of_ascii c <=? hi)%nat.

Definition is_upper (c : ascii) : bool := in_range 65 90 c.

Definition is_alnum (c : ascii) : bool :=
  in_range 48 57 c || in_range 65 90 c || in_range 97 122 c.

(** Python's whitespace among the ASCII characters: tab, line feed,
    vertical tab, form feed, carriage return, the four separators
    [0x1c]-[0x1f] and the space.  [str.strip] and the regular expression
    class [\s] use the same set. *)
Definition is_space (c : ascii) : bool :=
  in_range 9 13 c || in_range 28 32 c.

Definition lower_char (c : ascii) : ascii :=
  if is_upper c then ascii_of_nat (nat_of_ascii c + 32) else c.

Fixpoint lstrip (l : list ascii) : list ascii :=
  match l with
  | [] => []
  | c :: l' => if is_space c then lstrip l' else l
  end.

Definition rstrip (l : list ascii) : list ascii := rev (lstrip (rev l)).

(** [str.lower] *)
Definition str_lower (s : string) : string :=
  string_of_list_ascii (map lower_char (list_ascii_of_string s)).

(** [str.strip] *)
Definition str_strip (s : string) : string :=
  string_of_list_ascii (rstrip (lstrip (list_ascii_of_string s))).

(** [re.sub(r'[^a-zA-Z0-9\s]', '', s)] *)
Definition str_remove_special (s : string) : string :=
  string_of_list_ascii
    (filter (fun c => is_alnum c || is_space c) (list_ascii_of_string s)).

(** A method of pandas' [.str] accessor applied to a column.  The accessor
    exists on [object] columns only ([AttributeError] otherwise); on such a
    column the method maps every text and yields the missing marker for
    every other value. *)
Definition str_apply (f : string -> string) (c : cell) : cell :=
  match c with
  | Text s => Text (f s)
  | _ => NaN
  end.

Definition str_method (f : string -> string) (col : column) : result column :=
  if existsb is_text col then Ok (map (str_apply f) col)
  else Raise AttributeError.

(** [df[column] = df[column].str.f()] *)
Definition assign_str (f : string -> string) (df : DataFrame) (column : string)
  : result DataFrame :=
  c <- getitem df column ;;
  c' <- str_method f c ;;
  Ok (setitem df column c').

Definition clean_text_column (df : DataFrame) (column : string)
  (lower remove_space remove_special : bool) : result DataFrame :=
  df <- (if lower then assign_str str_lower df column else Ok df) ;;
  df <- (if remove_space then assign_str str_strip df column else Ok df) ;;
  df <- (if remove_special then assign_str str_remove_special df column
         else Ok df) ;;
  Ok df.

(** ** Numbers *)

Local Open Scope R_scope.

Definition Rleb (x y : R) : bool := if Rle_dec x y then true else false.

Definition Reqb (x y : R) : bool := if Req_dec_T x y then true else false.

Fixpoint insert (x : R) (l : list R) : list R :=
  match l with
  | [] => [x]
  | y :: l' => if Rleb x y then x :: l else y :: insert x l'
  end.

Definition sort (l : list R) : list R := fold_right insert [] l.

Definition sum (l : list R) : R := fold_right Rplus 0 l.

Definition mean (l : list R) : R := sum l / INR (List.length l).

(** The median of a non-empty list: the middle value of the sorted list,
    or the mean of the two middle values. *)
Definition median (l : list R) : R :=
  let s := sort l in
  let n := List.length s in
  if Nat.even n
  then (nth (n / 2 - 1) s 0 + nth (n / 2) s 0) / 2
  else nth (n / 2) s 0.

(** The population variance (numpy's [ddof=0]). *)
Definition variance (l : list R) : R :=
  mean (map (fun x => (x - mean l) * (x - mean l)) l).

(** The quantile [p/d] of a sorted list with linear interpolation, as numpy
    and pandas compute it by default: the virtual index is [(n-1) * p/d],
    the result lies between the two neighbouring values.  It is the missing
    marker ([None]) for the empty list. *)
Definition quantile (s : list R) (p d : nat) : option R :=
  match s with
  | [] => None
  | _ =>
      let n := List.length s in
      let k := ((n - 1) * p)%nat in
      let i := (k / d)%nat in
      let lo := nth i s 0 in
      let hi := nth (Nat.min (i + 1) (n - 1)) s 0 in
      Some (lo + (hi - lo) * (INR (k mod d) / INR d))
  end.

(** The numbers of a column, missing values skipped. *)
Definition numbers (col : column) : list R :=
  flat_map (fun c => match c with Num x => [x] | _ => [] end) col.

(** [Series.quantile(p/d)]: pandas skips the missing values and answers
    the missing marker when nothing is left; an [object] column raises
    [TypeError]. *)
Definition Series_quantile (col : column) (p d : nat) : result (option R) :=
  if existsb is_text col then Raise TypeError
  else Ok (quantile (sort (numbers col)) p d).

(** ** The libraries the code calls

    What the code takes from its environment and is left open here: the
    conversion of a text to a float that numpy performs when scikit-learn
    validates its input, pandas' [astype] and [drop_duplicates],
    [os.path.exists] and the four pandas readers.  Every result below
    holds whatever these do. *)

Inductive dtype : Type :=
| dtype_int
| dtype_float
| dtype_str
| dtype_datetime
| dtype_other (name : string).

Class Library : Type := {
  float_of_str : string -> option R;
  astype : dtype -> column -> result column;
  (* [keep] is ['first'], ['last'] or [False] ([None] here) *)
  drop_duplicates :
    DataFrame -> option (list string) -> option string -> result DataFrame;
  path_exists : string -> bool;
  read_csv : string -> result DataFrame;
  read_json : string -> result DataFrame;
  read_parquet : string -> result DataFrame;
  read_excel : string -> result DataFrame
}.

(** ** scikit-learn: input validation, [SimpleImputer] and the scalers *)

(** A validated array: columns of floats, [None] standing for [NaN]. *)
Definition farray : Type := list (list (option R)).

Fixpoint mapM {A B : Type} (f : A -> result B) (l : list A) : result (list B) :=
  match l with
  | [] => Ok []
  | x :: l' =>
      y <- f x ;;
      ys <- mapM f l' ;;
      Ok (y :: ys)
  end.

Definition to_float `{Library} (c : cell) : result (option R) :=
  match c with
  | Num x => Ok (Some x)
  | NaN => Ok None
  | Text s =>
      match float_of_str s with
      | Some x => Ok (Some x)
      | None => Raise ValueError
      end
  end.

Definition of_float (o : option R) : cell :=
  match o with
  | Some x => Num x
  | None => NaN
  end.

(** [check_array]: every value is converted to a float ([ValueError] for
    a text that is not a number) and at least one row is required. *)
Definition check_array `{Library} (X : list column) : result farray :=
  A <- mapM (mapM to_float) X ;;
  match A with
  | [] :: _ => Raise ValueError
  | _ => Ok A
  end.

Definition present (col : list (option R)) : list R :=
  flat_map (fun o => match o with Some x => [x] | None => [] end) col.

(** The imputation strategies [handle_missing_values] can ask for. *)
Inductive imputation : Type :=
| by_mean
| by_median
| by_mode.

(** Filling by a statistic of the observed values of each column; a column
    without any observed value is dropped from the output (scikit-learn's
    default [keep_empty_features=False]). *)
Definition impute (stat : list R -> R) (A : farray) : list column :=
  flat_map
    (fun col =>
       match present col with
       | [] => []
       | vs =>
           [map (fun o => match o with Some x => Num x | None => Num (stat vs) end)
                col]
       end)
    A.

(** [SimpleImputer(strategy=...).fit_transform(X)].  scikit-learn accepts
    the strategies ['mean'], ['median'], ['most_frequent'] and
    ['constant'] and rejects any other name, ['mode'] included, with an
    [InvalidParameterError] (a [ValueError]) before it looks at the data. *)
Definition SimpleImputer_fit_transform `{Library} (strategy : imputation)
  (X : list column) : result (list column) :=
  match strategy with
  | by_mode => Raise ValueError
  | by_mean => A <- check_array X ;; Ok (impute mean A)
  | by_median => A <- check_array X ;; Ok (impute median A)
  end.

(** scikit-learn's [_handle_zeros_in_scale]: a zero scale becomes one.
    (The library tests [scale < 10 * eps] for the machine epsilon; with
    exact numbers that is [scale = 0].) *)
Definition handle_zeros_in_scale (scale : R) : R :=
  if Reqb scale 0 then 1 else scale.

Inductive scaler : Type :=
| StandardScaler
| MinMaxScaler.

(** [MinMaxScaler] with its default range [(0, 1)]; missing values are
    ignored by [fit] and kept by [transform]. *)
Definition minmax_scale (col : list (option R)) : list (option R) :=
  match present col with
  | [] => col
  | v :: vs =>
      let data_min := fold_left Rmin vs v in
      let data_max := fold_left Rmax vs v in
      let data_range := data_max - data_min in
      let scale_ := (1 - 0) / handle_zeros_in_scale data_range in
      let min_ := 0 - data_min * scale_ in
      map (option_map (fun x => x * scale_ + min_)) col
  end.

(** [StandardScaler]: centred on the mean and divided by the square root
    of the population variance. *)
Definition standard_scale (col : list (option R)) : list (option R) :=
  match present col with
  | [] => col
  | vs =>
      let mean_ := mean vs in
      let var_ := variance vs in
      let scale_ := handle_zeros_in_scale (sqrt var_) in
      map (option_map (fun x => (x - mean_) / scale_)) col
  end.

Definition fit_transform `{Library} (s : scaler) (X : list column)
  : result (list column) :=
  A <- check_array X ;;
  Ok (map (fun col =>
             map of_float
                 (match s with
                  | StandardScaler => standard_scale col
                  | MinMaxScaler => minmax_scale col
                  end))
          A).

(** ** cleaning.py *)

Definition is_empty {A : Type} (l : list A) : bool :=
  match l with
  | [] => true
  | _ :: _ => false
  end.

(** The columns with a missing value, in the order of the table. *)
Definition columns_with_null (df : DataFrame) : list string :=
  map fst (filter (fun nc => existsb isnull (snd nc)) df).

Fixpoint zip_with {A B C : Type} (f : A -> B -> C) (l : list A) (l' : list B)
  : list C :=
  match l, l' with
  | a :: t, b :: t' => f a b :: zip_with f t t'
  | _, _ => []
  end.

(** [df.dropna(subset=subset)]: the rows without a missing value in the
    columns of [subset]. *)
Definition dropna (df : DataFrame) (subset : list string) : result DataFrame :=
  X <- getitems df subset ;;
  let missing :=
    fold_left (fun m col => zip_with orb m (map isnull col)) X
              (repeat false (nrows df)) in
  Ok (take_rows (map negb missing) df).

(** [Series.fillna(value)] *)
Definition fillna (value : cell) (col : column) : column :=
  map (fun c => if isnull c then value else c) col.

Definition imputation_of (strategy : string) : option imputation :=
  if String.eqb strategy "mean" then Some by_mean
  else if String.eqb strategy "median" then Some by_median
  else if String.eqb strategy "mode" then Some by_mode
  else None.

(** [if columns is None: columns = df.columns[df.isnull().any()].tolist()] *)
Definition selected (df : DataFrame) (columns : option (list string))
  : list string :=
  match columns with
  | None => columns_with_null df
  | Some cs => cs
  end.

Definition handle_missing_values `{Library} (df : DataFrame) (strategy : string)
  (columns : option (list string)) (fill_value : option cell)
  : result DataFrame :=
  let columns := selected df columns in
  if is_empty columns then Ok df
  else if String.eqb strategy "drop" then dropna df columns
  else if String.eqb strategy "constant" then
    match fill_value with
    | None => Raise ValueError
    | Some v =>
        X <- getitems df columns ;;
        setitems df columns (map (fillna v) X)
    end
  else
    match imputation_of strategy with
    | Some imputer =>
        X <- getitems df columns ;;
        Y <- SimpleImputer_fit_transform imputer X ;;
        setitems df columns Y
    | None => Raise ValueError
    end.

(** The bounds [Q1 - factor * IQR] and [Q3 + factor * IQR]; they are the
    missing marker when the quartiles are. *)
Definition iqr_bounds (col : column) (factor : R) : result (option (R * R)) :=
  Q1 <- Series_quantile col 1 4 ;;
  Q3 <- Series_quantile col 3 4 ;;
  Ok (match Q1, Q3 with
      | Some Q1, Some Q3 =>
          let IQR := Q3 - Q1 in
          Some (Q1 - factor * IQR, Q3 + factor * IQR)
      | _, _ => None
      end).

(** [(v >= lower_bound) & (v <= upper_bound)]; a comparison with a missing
    value is false. *)
Definition within (bounds : option (R * R)) (c : cell) : bool :=
  match bounds, c with
  | Some (lower_bound, upper_bound), Num v =>
      Rleb lower_bound v && Rleb v upper_bound
  | _, _ => false
  end.

Definition remove_outliers_iqr (df : DataFrame) (column : string) (factor : R)
  : result DataFrame :=
  col <- getitem df column ;;
  bounds <- iqr_bounds col factor ;;
  Ok (take_rows (map (within bounds) col) df).

Definition normalize_data `{Library} (df : DataFrame) (columns : list string)
  (method : string) : result DataFrame :=
  if is_empty columns then Ok df
  else
    s <- (if String.eqb method "standard" then Ok StandardScaler
          else if String.eqb method "minmax" then Ok MinMaxScaler
          else Raise ValueError) ;;
    X <- getitems df columns ;;
    Y <- fit_transform s X ;;
    setitems df columns Y.

Definition remove_duplicates `{Library} (df : DataFrame)
  (subset : option (list string)) (keep : option string) : result DataFrame :=
  drop_duplicates df subset keep.

(** ** What the code prints and calls *)

Inductive message : Type :=
| file_not_found (filepath : string)
| unsupported_file_type (file_type : string)
| file_is_empty (filepath : string)
| could_not_parse (filepath : string)
| unexpected_import_error (filepath : string)
| error_converting_column (column : string) (to : dtype).

Inductive step : Type :=
| step_handle_missing_values
| step_remove_outliers_iqr (column : string)
| step_normalize_data
| step_convert_column_type (column : string)
| step_remove_duplicates
| step_clean_text_column (column : string).

Inductive event : Type :=
| Printed (m : message)
| Called (s : step).

(** A computation that prints and calls on its way to a result. *)
Definition M (A : Type) : Type := (list event * result A)%type.

Definition ret {A : Type} (a : A) : M A := ([], Ok a).

Definition mbind {A B : Type} (m : M A) (k : A -> M B) : M B :=
  match m with
  | (log, Ok a) => (log ++ fst (k a), snd (k a))
  | (log, Raise e) => (log, Raise e)
  end.

Notation "x <~ e ;; k" := (mbind e (fun x => k))
  (at level 61, e at next level, right associativity).

Definition print (m : message) : M unit := ([Printed m], Ok tt).

Definition lift {A : Type} (r : result A) : M A := ([], r).

(** A call of one of the cleaning functions by the orchestrator. *)
Definition call {A : Type} (s : step) (m : M A) : M A :=
  (Called s :: fst m, snd m).

Fixpoint for_each {A S : Type} (l : list A) (body : S -> A -> M S) (s : S)
  : M S :=
  match l with
  | [] => ret s
  | x :: l' => s' <~ body s x ;; for_each l' body s'
  end.

Definition convert_column_type `{Library} (df : DataFrame) (column : string)
  (to : dtype) : M DataFrame :=
  match (col <- getitem df column ;;
         col' <- astype to col ;;
         Ok (setitem df column col')) with
  | Ok df' => ret df'
  | Raise _ =>
      _ <~ print (error_converting_column column to) ;;
      ret df
  end.

(** ** io.py *)

(** [filepath.split('.')[-1]]: what follows the last dot, the whole path
    when it has none. *)
Fixpoint after_last_dot (l acc : list ascii) : list ascii :=
  match l with
  | [] => acc
  | c :: l' =>
      if Ascii.eqb c "."%char then after_last_dot l' l'
      else after_last_dot l' acc
  end.

Definition extension (filepath : string) : string :=
  let l := list_ascii_of_string filepath in
  string_of_list_ascii (after_last_dot l l).

Definition import_data `{Library} (filepath : string) (file_type : option string)
  : M (option DataFrame) :=
  if negb (path_exists filepath) then
    _ <~ print (file_not_found filepath) ;;
    ret None
  else
    let file_type :=
      match file_type with
      | None => str_lower (extension filepath)
      | Some t => t
      end in
    let reader :=
      if String.eqb file_type "csv" then Some read_csv
      else if String.eqb file_type "json" then Some read_json
      else if String.eqb file_type "parquet" then Some read_parquet
      else if String.eqb file_type "xls" || String.eqb file_type "xlsx"
      then Some read_excel
      else None in
    match reader with
    | None =>
        _ <~ print (unsupported_file_type file_type) ;;
        ret None
    | Some read =>
        match read filepath with
        | Ok df => ret (Some df)
        | Raise EmptyDataError =>
            _ <~ print (file_is_empty filepath) ;;
            ret None
        | Raise ParserError =>
            _ <~ print (could_not_parse filepath) ;;
            ret None
        | Raise _ =>
            _ <~ print (unexpected_import_error filepath) ;;
            ret None
        end
    end.

(** ** The orchestrator *)

(** The keyword arguments of [clean_data]; [None] is Python's [None]. *)
Record config : Type := {
  strategy : string;
  outlier_cols : option (list string);
  outlier_factor : R;
  normalize_cols : option (list string);
  normalize_method : string;
  convert_type : option (list (string * dtype));
  dup_subset : option (list string);
  dup_keep : option string;
  text_cols : option (list string);
  text_lower : bool;
  text_space : bool;
  text_special : bool
}.

Definition default_config : config := {|
  strategy := "mean";
  outlier_cols := None;
  outlier_factor := 1.5;
  normalize_cols := None;
  normalize_method := "standard";
  convert_type := None;
  dup_subset := None;
  dup_keep := Some "first";
  text_cols := None;
  text_lower := true;
  text_space := true;
  text_special := true
|}.

(** Python's truth value of an optional list: [None] and the empty list
    are false. *)
Definition items {A : Type} (o : option (list A)) : list A :=
  match o with
  | Some l => l
  | None => []
  end.

(** [if outlier_cols: for col in outlier_cols: ...] *)
Definition remove_outliers (cols : list string) (factor : R) (df : DataFrame)
  : M DataFrame :=
  for_each cols
    (fun df col =>
       call (step_remove_outliers_iqr col)
            (lift (remove_outliers_iqr df col factor)))
    df.

(** [if convert_type: for col, type in convert_type.items(): ...] *)
Definition convert_types `{Library} (types : list (string * dtype))
  (df : DataFrame) : M DataFrame :=
  for_each types
    (fun df ct =>
       call (step_convert_column_type (fst ct))
            (convert_column_type df (fst ct) (snd ct)))
    df.

(** [if text_cols: for col in text_cols: ...] *)
Definition clean_text_columns (cols : list string)
  (lower remove_space remove_special : bool) (df : DataFrame) : M DataFrame :=
  for_each cols
    (fun df col =>
       call (step_clean_text_column col)
            (lift (clean_text_column df col lower remove_space remove_special)))
    df.

Definition clean_data `{Library} (filepath : string) (cfg : config)
  : M (option DataFrame) :=
  df <~ import_data filepath None ;;
  match df with
  | None => ret None
  | Some df =>
      df <~ call step_handle_missing_values
              (lift (handle_missing_values df (strategy cfg) None None)) ;;
      df <~ remove_outliers (items (outlier_cols cfg)) (outlier_factor cfg) df ;;
      df <~ (if is_empty (items (normalize_cols cfg)) then ret df
             else call step_normalize_data
                    (lift (normalize_data df (items (normalize_cols cfg))
                                          (normalize_method cfg)))) ;;
      df <~ convert_types (items (convert_type cfg)) df ;;
      df <~ call step_remove_duplicates
              (lift (remove_duplicates df (dup_subset cfg) (dup_keep cfg))) ;;
      df <~ clean_text_columns (items (text_cols cfg)) (text_lower cfg)
              (text_space cfg) (text_special cfg) df ;;
      ret (Some df)
  end.

(** ** Stating the properties *)

Definition mem (n : string) (l : list string) : bool :=
  existsb (String.eqb n) l.

(** [df'] has the columns of [df], under the same names, in the same order
    and of the same length, and every column not named in [cols] holds the
    same values in the same rows. *)
Definition unchanged_outside (cols : list string) (df df' : DataFrame) : Prop :=
  Forall2
    (fun nc nc' =>
       fst nc' = fst nc /\
       List.length (snd nc') = List.length (snd nc) /\
       (mem (fst nc) cols = false -> snd nc' = snd nc))
    df df'.

(** The table in which [f] has been applied to the columns named in
    [cols]. *)
Definition update_columns (f : column -> column) (cols : list string)
  (df : DataFrame) : DataFrame :=
  map (fun nc => if mem (fst nc) cols then (fst nc, f (snd nc)) else nc) df.



(** The cleaning functions called, in the order of the calls. *)
Definition calls (log : list event) : list step :=
  flat_map (fun e => match e with Called s => [s] | Printed _ => [] end) log.

(** ** An environment for the examples

    Two files, [data.csv] and [sightings.csv], each holding a table; in
    this environment no text reads as a number, a cast to [float] succeeds
    on the columns without text and no row is a duplicate. *)

Definition sample_table : DataFrame :=
  [ ("age", [Num 31; NaN; Num 47]);
    ("city", [Text " Oslo!"; Text "Rome"; NaN]);
    ("score", [Num 0; Num 5; Num 10]) ].

Definition sightings_table : DataFrame :=
  [ ("duration", [Num 1; Num 2; Num 3; Num 4; Num 100]);
    ("latitude", [Num 10; Num 10; Num 10; Num 13; Num 20]) ].

Definition sample_library : Library := {|
  float_of_str := fun _ => None;
  astype := fun to col =>
    match to with
    | dtype_float => if existsb is_text col then Raise ValueError else Ok col
    | _ => Raise TypeError
    end;
  drop_duplicates := fun df _ _ => Ok df;
  path_exists := fun p => String.eqb p "data.csv" || String.eqb p "sightings.csv";
  read_csv := fun p =>
    if String.eqb p "sightings.csv" then Ok sightings_table else Ok sample_table;
  read_json := fun _ => Raise OtherError;
  read_parquet := fun _ => Raise OtherError;
  read_excel := fun _ => Raise OtherError
|}.

(** [clean_data('sightings.csv', outlier_cols=['duration', 'latitude'])] *)
Definition sightings_config : config := {|
  strategy := "mean";
  outlier_cols := Some ["duration"; "latitude"];
  outlier_factor := 1.5;
  normalize_cols := None;
  normalize_method := "standard";
  convert_type := None;
  dup_subset := None;
  dup_keep := Some "first";
  text_cols := None;
  text_lower := true;
  text_space := true;
  text_special := true
|}.

(** [clean_data('data.csv', strategy='constant')] *)
Definition constant_config : config := {|
  strategy := "constant";
  outlier_cols := None;
  outlier_factor := 1.5;
  normalize_cols := None;
  normalize_method := "standard";
  convert_type := None;
  dup_subset := None;
  dup_keep := Some "first";
  text_cols := None;
  text_lower := true;
  text_space := true;
  text_special := true
|}.

(** Every column has as many values as the table has rows. *)
Definition rectangular (df : DataFrame) : Prop :=
  Forall (fun nc => List.length (snd nc) = nrows df) df.





(** ** io.py: [export_data] *)

(** The keyword arguments passed on to the writer, in the order of the
    dictionary. *)
Definition kwargs : Type := list (string * string).

(** [key in kwargs] *)
Definition has_key (key : string) (kw : kwargs) : bool :=
  existsb (fun kv => String.eqb (fst kv) key) kw.

(** [if key not in kwargs: kwargs[key] = value] *)
Definition setdefault (key value : string) (kw : kwargs) : kwargs :=
  if has_key key kw then kw else kw ++ [(key, value)].

(** The writers of pandas: [DataFrame.to_csv], [to_json], [to_parquet] and
    [to_excel], called with the path, [index] and the keyword arguments. *)
Class Writers : Type := {
  to_csv : DataFrame -> string -> bool -> kwargs -> result unit;
  to_json : DataFrame -> string -> bool -> kwargs -> result unit;
  to_parquet : DataFrame -> string -> bool -> kwargs -> result unit;
  to_excel : DataFrame -> string -> bool -> kwargs -> result unit
}.

Inductive export_message : Type :=
| unsupported_export_type (file_type : string)
| error_exporting (filepath : string).

(** What [export_data] prints, and the boolean it returns. *)
Definition export_data `{Writers} (df : DataFrame) (filepath file_type : string)
  (index : bool) (kw : kwargs) : list export_message * bool :=
  let written :=
    if String.eqb file_type "csv" then Some (to_csv df filepath index kw)
    else if String.eqb file_type "json"
    then Some (to_json df filepath index (setdefault "orient" "records" kw))
    else if String.eqb file_type "parquet"
    then Some (to_parquet df filepath index kw)
    else if String.eqb file_type "xls" || String.eqb file_type "xlsx"
    then Some (to_excel df filepath index
                        (setdefault "sheet_name" "Sheet1" kw))
    else None in
  match written with
  | Some (Ok _) => ([], true)
  | Some (Raise _) => ([error_exporting filepath], false)
  | None => ([unsupported_export_type file_type], false)
  end.

(** The type names the importer and the exporter know. *)
Definition file_types : list string := ["csv"; "json"; "parquet"; "xls"; "xlsx"].

(** Writers for the examples: every export succeeds. *)
Definition sample_writers : Writers := {|
  to_csv := fun _ _ _ _ => Ok tt;
  to_json := fun _ _ _ _ => Ok tt;
  to_parquet := fun _ _ _ _ => Ok tt;
  to_excel := fun _ _ _ _ => Ok tt
|}.

(** [clean_data('data.csv', strategy='drop', text_cols=['city'])] *)
Definition drop_config : config := {|
  strategy := "drop";
  outlier_cols := None;
  outlier_factor := 1.5;
  normalize_cols := None;
  normalize_method := "standard";
  convert_type := None;
  dup_subset := None;
  dup_keep := Some "first";
  text_cols := Some ["city"];
  text_lower := true;
  text_space := true;
  text_special := true
|}.

(** * Properties *)

(** ** Results *)

Lemma bind_assoc {A B C : Type} (r : result A) (f : A -> result B)
  (g : B -> result C) :
  bind (bind r f) g = bind r (fun a => bind (f a) g).
Proof. destruct r; reflexivity. Qed.

Lemma bind_Ok_r {A : Type} (r : result A) : bind r Ok = r.
Proof. destruct r; reflexivity. Qed.

(** ** Column access *)

Lemma getitem_setitem_same df n c : getitem (setitem df n c) n = Ok c.
Proof.
  induction df as [|[m c0] df IH]; simpl.
  - now rewrite String.eqb_refl.
  - destruct (String.eqb m n) eqn:E; simpl; rewrite E; auto.
Qed.

Lemma setitem_setitem df n c c' : setitem (setitem df n c) n c' = setitem df n c'.
Proof.
  induction df as [|[m c0] df IH]; simpl.
  - now rewrite String.eqb_refl.
  - destruct (String.eqb m n) eqn:E; simpl; rewrite E; congruence.
Qed.

(** ** Text cleaning *)

Lemma is_space_lower_char c : is_space (lower_char c) = is_space c.
Proof. destruct c as [[] [] [] [] [] [] [] []]; reflexivity. Qed.

Lemma lstrip_lower l : lstrip (map lower_char l) = map lower_char (lstrip l).
Proof.
  induction l as [|c l IH]; simpl; auto.
  rewrite is_space_lower_char. destruct (is_space c); auto.
Qed.

Lemma rstrip_lower l : rstrip (map lower_char l) = map lower_char (rstrip l).
Proof.
  unfold rstrip. now rewrite <- map_rev, lstrip_lower, map_rev.
Qed.

(** Lowering and stripping commute: lowering a character neither makes nor
    unmakes a whitespace. *)
Lemma str_strip_lower s : str_strip (str_lower s) = str_lower (str_strip s).
Proof.
  unfold str_strip, str_lower.
  rewrite !list_ascii_of_string_of_list_ascii.
  now rewrite lstrip_lower, rstrip_lower.
Qed.

Lemma existsb_is_text_str_apply f col :
  existsb is_text (map (str_apply f) col) = existsb is_text col.
Proof.
  induction col as [|c col IH]; simpl; auto.
  rewrite IH. now destruct c.
Qed.

Lemma assign_str_ext f g df column :
  (forall s, f s = g s) -> assign_str f df column = assign_str g df column.
Proof.
  intros E. unfold assign_str, str_method.
  destruct (getitem df column) as [col|]; simpl; auto.
  destruct (existsb is_text col); simpl; auto.
  do 2 f_equal. apply map_ext. intros [| |]; simpl; congruence.
Qed.

(** Two [.str] assignments to a column in a row amount to one. *)
Lemma assign_str_assign_str f g df column :
  (df1 <- assign_str f df column ;; assign_str g df1 column)
  = assign_str (fun s => g (f s)) df column.
Proof.
  unfold assign_str, str_method.
  destruct (getitem df column) as [col|]; simpl; auto.
  destruct (existsb is_text col) eqn:E; simpl; auto.
  rewrite getitem_setitem_same. simpl.
  rewrite existsb_is_text_str_apply, E. simpl.
  rewrite setitem_setitem, map_map.
  do 2 f_equal. apply map_ext. now intros [| |].
Qed.

Lemma clean_text_column_only_lower df column :
  clean_text_column df column true false false = assign_str str_lower df column.
Proof. unfold clean_text_column. now destruct (assign_str _ _ _). Qed.

Lemma clean_text_column_only_strip df column :
  clean_text_column df column false true false = assign_str str_strip df column.
Proof. unfold clean_text_column. simpl. now destruct (assign_str _ _ _). Qed.

Lemma clean_text_column_only_special df column :
  clean_text_column df column false false true
  = assign_str str_remove_special df column.
Proof. unfold clean_text_column. simpl. now destruct (assign_str _ _ _). Qed.

Lemma clean_text_column_all df column :
  clean_text_column df column true true true
  = (df1 <- assign_str str_lower df column ;;
     df2 <- assign_str str_strip df1 column ;;
     assign_str str_remove_special df2 column).
Proof.
  unfold clean_text_column.
  destruct (assign_str str_lower df column) as [df1|]; simpl; auto.
  destruct (assign_str str_strip df1 column) as [df2|]; simpl; auto.
  now destruct (assign_str _ df2 column).
Qed.

(** C4: on the value [" He!!o "] the text normalizer with its three flags
    set yields ["heo"]; and on every table it yields what stripping, then
    lowering, then removing the special characters yields (the code lowers
    before it strips, and the two orders give the same text). *)
Theorem clean_text_column_all_flags :
  clean_text_column [("text", [Text " He!!o "])] "text" true true true
  = Ok [("text", [Text "heo"])]
  /\ forall df column,
       clean_text_column df column true true true
       = (df1 <- clean_text_column df column false true false ;;
          df2 <- clean_text_column df1 column true false false ;;
          clean_text_column df2 column false false true).
Proof.
  split; [reflexivity|].
  intros df column.
  rewrite clean_text_column_all, clean_text_column_only_strip.
  rewrite <- !bind_assoc, !assign_str_assign_str.
  transitivity
    (df2 <- (df1 <- assign_str str_strip df column ;;
             assign_str str_lower df1 column) ;;
     assign_str str_remove_special df2 column).
  - rewrite !assign_str_assign_str.
    apply assign_str_ext. intros s. now rewrite str_strip_lower.
  - destruct (assign_str str_strip df column) as [df1|]; simpl; auto.
    rewrite clean_text_column_only_lower.
    destruct (assign_str str_lower df1 column) as [df2|]; simpl; auto.
    now rewrite clean_text_column_only_special.
Qed.

(** ** Comparisons of numbers *)

Lemma Rleb_le x y : Rleb x y = true <-> x <= y.
Proof. unfold Rleb. destruct (Rle_dec x y); split; auto; discriminate. Qed.

Lemma Rleb_true x y : x <= y -> Rleb x y = true.
Proof. apply Rleb_le. Qed.

Lemma Rleb_false x y : y < x -> Rleb x y = false.
Proof.
  intros H. destruct (Rleb x y) eqn:E; auto.
  apply Rleb_le in E. lra.
Qed.

Lemma Reqb_true x y : x = y -> Reqb x y = true.
Proof. intros H. unfold Reqb. now destruct (Req_dec_T x y). Qed.

Lemma Reqb_false x y : x <> y -> Reqb x y = false.
Proof. intros H. unfold Reqb. now destruct (Req_dec_T x y). Qed.

(** Decides the comparisons of the goal one after the other. *)
Ltac compare_numbers :=
  repeat (first [ rewrite Rleb_true by lra
                | rewrite Rleb_false by lra
                | rewrite Reqb_true by lra
                | rewrite Reqb_false by lra ];
          cbn [insert fold_right andb orb negb]).

(** ** Outlier removal *)

Lemma getitem_take_rows mask df n :
  getitem (take_rows mask df) n = (c <- getitem df n ;; Ok (compress mask c)).
Proof.
  induction df as [|[m c] df IH]; simpl; auto.
  destruct (String.eqb m n); auto.
Qed.

Lemma within_inclusive lower upper v :
  within (Some (lower, upper)) (Num v) = true <-> lower <= v <= upper.
Proof.
  simpl. rewrite andb_true_iff, !Rleb_le. tauto.
Qed.

(** Evaluates [iqr_bounds] on a column of numbers whose sorted list is
    given by the equation [Hsort]. *)
Ltac evaluate_iqr_bounds Hsort :=
  unfold iqr_bounds, Series_quantile;
  cbn [existsb is_text orb numbers flat_map app];
  rewrite Hsort; simpl; do 3 f_equal; lra.

Lemma sort_1_2_3_4_100 : sort [1; 2; 3; 4; 100] = [1; 2; 3; 4; 100].
Proof. unfold sort. cbn [insert fold_right]. now compare_numbers. Qed.

Lemma quartiles_1_2_3_4_100 :
  Series_quantile [Num 1; Num 2; Num 3; Num 4; Num 100] 1 4 = Ok (Some 2)
  /\ Series_quantile [Num 1; Num 2; Num 3; Num 4; Num 100] 3 4 = Ok (Some 4).
Proof.
  unfold Series_quantile. cbn [existsb is_text orb numbers flat_map app].
  rewrite sort_1_2_3_4_100. simpl. split; do 2 f_equal; lra.
Qed.

Lemma iqr_bounds_1_2_3_4_100 :
  iqr_bounds [Num 1; Num 2; Num 3; Num 4; Num 100] 1.5 = Ok (Some (-1, 7)).
Proof. evaluate_iqr_bounds sort_1_2_3_4_100. Qed.

Lemma remove_outliers_iqr_drops_100 df column :
  getitem df column = Ok [Num 1; Num 2; Num 3; Num 4; Num 100] ->
  remove_outliers_iqr df column 1.5
  = Ok (take_rows [true; true; true; true; false] df).
Proof.
  intros Hcol. unfold remove_outliers_iqr. rewrite Hcol. cbn [bind].
  rewrite iqr_bounds_1_2_3_4_100. cbn [bind map within].
  now compare_numbers.
Qed.

(** Values that sit on the bounds stay: on -1, 2, 3, 4, 7 the bounds are
    again -1 and 7 and no row is removed. *)
Lemma remove_outliers_iqr_keeps_the_bounds :
  remove_outliers_iqr [("x", [Num (-1); Num 2; Num 3; Num 4; Num 7])] "x" 1.5
  = Ok [("x", [Num (-1); Num 2; Num 3; Num 4; Num 7])].
Proof.
  assert (Hsort : sort [-1; 2; 3; 4; 7] = [-1; 2; 3; 4; 7]).
  { unfold sort. cbn [insert fold_right]. now compare_numbers. }
  assert (HB : iqr_bounds [Num (-1); Num 2; Num 3; Num 4; Num 7] 1.5
               = Ok (Some (-1, 7))) by evaluate_iqr_bounds Hsort.
  unfold remove_outliers_iqr. cbn [getitem String.eqb Ascii.eqb Bool.eqb bind].
  rewrite HB. cbn [bind map within]. now compare_numbers.
Qed.

(** C8: on a column holding 1, 2, 3, 4, 100 the quartiles are 2 and 4, the
    bounds for the factor 1.5 are -1 and 7, and the table is returned
    restricted to its first four rows, those of the values 1, 2, 3, 4; the
    comparison with the bounds is inclusive, and on -1, 2, 3, 4, 7, where
    two values sit on the bounds, every row is kept. *)
Theorem remove_outliers_iqr_1_2_3_4_100 df column :
  getitem df column = Ok [Num 1; Num 2; Num 3; Num 4; Num 100] ->
  Series_quantile [Num 1; Num 2; Num 3; Num 4; Num 100] 1 4 = Ok (Some 2)
  /\ Series_quantile [Num 1; Num 2; Num 3; Num 4; Num 100] 3 4 = Ok (Some 4)
  /\ iqr_bounds [Num 1; Num 2; Num 3; Num 4; Num 100] 1.5 = Ok (Some (-1, 7))
  /\ remove_outliers_iqr df column 1.5
     = Ok (take_rows [true; true; true; true; false] df)
  /\ getitem (take_rows [true; true; true; true; false] df) column
     = Ok [Num 1; Num 2; Num 3; Num 4]
  /\ (forall lower upper v,
        within (Some (lower, upper)) (Num v) = true <-> lower <= v <= upper)
  /\ remove_outliers_iqr [("x", [Num (-1); Num 2; Num 3; Num 4; Num 7])] "x" 1.5
     = Ok [("x", [Num (-1); Num 2; Num 3; Num 4; Num 7])].
Proof.
  intros Hcol.
  split; [apply quartiles_1_2_3_4_100|].
  split; [apply quartiles_1_2_3_4_100|].
  split; [apply iqr_bounds_1_2_3_4_100|].
  split; [now apply remove_outliers_iqr_drops_100|].
  split; [|split; [exact within_inclusive|]].
  - rewrite getitem_take_rows, Hcol. reflexivity.
  - exact remove_outliers_iqr_keeps_the_bounds.
Qed.

(** ** Normalization *)

Lemma variance_0_5_10 : variance [0; 5; 10] = 50 / 3.
Proof. unfold variance, mean, sum. simpl. field. Qed.

Lemma getitems_one df n c : getitem df n = Ok c -> getitems df [n] = Ok [c].
Proof. intros H. simpl. now rewrite H. Qed.

Lemma normalize_data_minmax_0_5_10 `{Library} df column :
  getitem df column = Ok [Num 0; Num 5; Num 10] ->
  normalize_data df [column] "minmax"
  = Ok (setitem df column [Num 0; Num (1 / 2); Num 1]).
Proof.
  intros Hcol.
  unfold normalize_data. cbn [is_empty String.eqb Ascii.eqb Bool.eqb bind].
  rewrite (getitems_one _ _ _ Hcol). cbn [bind].
  unfold fit_transform, check_array. simpl.
  unfold Rmin, Rmax.
  repeat (destruct (Rle_dec _ _); try lra).
  unfold handle_zeros_in_scale. rewrite Reqb_false by lra.
  do 2 apply f_equal.
  repeat (apply (f_equal2 cons); [apply f_equal; lra|]). reflexivity.
Qed.

(** C9: on a column holding 0, 5, 10 the min-max normalization yields
    0, 1/2, 1 and the standard normalization yields numbers of mean 0 and
    of population variance 1. *)
Theorem normalize_data_0_5_10 `{Library} df column :
  getitem df column = Ok [Num 0; Num 5; Num 10] ->
  normalize_data df [column] "minmax"
  = Ok (setitem df column [Num 0; Num (1 / 2); Num 1])
  /\ exists z0 z1 z2,
       normalize_data df [column] "standard"
       = Ok (setitem df column [Num z0; Num z1; Num z2])
       /\ mean [z0; z1; z2] = 0
       /\ variance [z0; z1; z2] = 1.
Proof.
  intros Hcol. split.
  - now apply normalize_data_minmax_0_5_10.
  - set (s := sqrt (50 / 3)).
    assert (Hs : s * s = 50 / 3) by (apply sqrt_sqrt; lra).
    assert (Hs0 : s <> 0) by (intros E; rewrite E in Hs; lra).
    exists ((0 - 5) / s), ((5 - 5) / s), ((10 - 5) / s).
    split; [|split].
    + unfold normalize_data. cbn [is_empty String.eqb Ascii.eqb Bool.eqb bind].
      rewrite (getitems_one _ _ _ Hcol). cbn [bind].
      unfold fit_transform, check_array. simpl.
      unfold standard_scale. cbn [present flat_map app].
      rewrite variance_0_5_10. fold s.
      unfold handle_zeros_in_scale. rewrite Reqb_false by exact Hs0.
      replace (mean [0; 5; 10]) with 5 by (unfold mean, sum; simpl; field).
      reflexivity.
    + unfold mean, sum. simpl. field. exact Hs0.
    + unfold variance, mean, sum. simpl. field_simplify; [|exact Hs0].
      replace (s ^ 2) with (50 / 3) by (rewrite <- Hs; ring).
      field.
Qed.

(** ** Assignments leave the other columns alone *)

Lemma unchanged_outside_refl cols df : unchanged_outside cols df df.
Proof. induction df; constructor; auto. Qed.

Lemma unchanged_outside_trans cols df df' df'' :
  unchanged_outside cols df df' -> unchanged_outside cols df' df'' ->
  unchanged_outside cols df df''.
Proof.
  intros H. revert df''.
  induction H as [|nc nc' df df' (Hn & Hl & Hv) _ IH]; intros df'' H'.
  - inversion H'. constructor.
  - inversion H' as [|? nc'' ? df2 (Hn' & Hl' & Hv') Hrest]; subst.
    constructor; [|now apply IH].
    repeat split; try congruence.
    intros Hm. rewrite Hv', Hv; congruence.
Qed.

Lemma unchanged_outside_setitem cols df n c c' :
  mem n cols = true -> getitem df n = Ok c ->
  List.length c' = List.length c ->
  unchanged_outside cols df (setitem df n c').
Proof.
  intros Hm Hg Hl.
  induction df as [|[m c0] df IH]; simpl in *; [discriminate|].
  destruct (String.eqb m n) eqn:E.
  - apply String.eqb_eq in E. subst m. injection Hg as ->.
    constructor; [|apply unchanged_outside_refl].
    simpl. repeat split; auto. congruence.
  - constructor; [simpl; auto|]. now apply IH.
Qed.

Lemma unchanged_outside_getitem cols df df' n c :
  unchanged_outside cols df df' -> getitem df n = Ok c ->
  exists c', getitem df' n = Ok c' /\ List.length c' = List.length c.
Proof.
  induction 1 as [|[m c0] [m' c0'] df df' (Hn & Hl & _) _ IH]; simpl;
    [discriminate|].
  simpl in Hn, Hl. subst m'. intros Hg.
  destruct (String.eqb m n); auto.
  injection Hg as <-. eauto.
Qed.

Lemma unchanged_outside_names cols df df' :
  unchanged_outside cols df df' -> column_names df' = column_names df.
Proof.
  unfold column_names.
  induction 1 as [|nc nc' df df' (Hn & _) _ IH]; simpl; [reflexivity|].
  f_equal; assumption.
Qed.

Lemma unchanged_outside_nrows cols df df' :
  unchanged_outside cols df df' -> nrows df' = nrows df.
Proof.
  destruct 1 as [|[n c] [n' c'] df df' (_ & Hl & _) _]; simpl; auto.
Qed.

Lemma unchanged_outside_other cols df df' n :
  unchanged_outside cols df df' -> mem n cols = false ->
  getitem df' n = getitem df n.
Proof.
  intros H Hm.
  induction H as [|[m c] [m' c'] df df' (Hn & _ & Hv) _ IH]; simpl; auto.
  simpl in Hn, Hv. subst m'.
  destruct (String.eqb m n) eqn:E; auto.
  apply String.eqb_eq in E. subst m. now rewrite Hv.
Qed.

Lemma unchanged_outside_setitems cols names Y : forall df,
  (forall n, In n names -> mem n cols = true) ->
  Forall2 (fun n y => exists c, getitem df n = Ok c
                                /\ List.length y = List.length c) names Y ->
  exists df', setitems df names Y = Ok df' /\ unchanged_outside cols df df'.
Proof.
  induction names as [|n names IH] in Y |- *; intros df Hin HF;
    inversion HF as [|? y ? Y' (c & Hg & Hl) HF']; subst; simpl.
  - eexists. split; eauto using unchanged_outside_refl.
  - assert (H1 : unchanged_outside cols df (setitem df n y))
      by (eapply unchanged_outside_setitem; eauto; apply Hin; now left).
    destruct (IH Y' (setitem df n y)) as (df' & Hs & Hu).
    + intros m Hm. apply Hin. now right.
    + eapply Forall2_impl; [|exact HF'].
      intros m y' (c' & Hg' & Hl').
      destruct (unchanged_outside_getitem _ _ _ _ _ H1 Hg') as (c'' & ? & ?).
      exists c''. split; auto. congruence.
    + exists df'. split; auto.
      eapply unchanged_outside_trans; eauto.
Qed.

Lemma getitems_Forall2 df names X :
  getitems df names = Ok X ->
  Forall2 (fun n x => getitem df n = Ok x) names X.
Proof.
  revert X. induction names as [|n names IH]; simpl; intros X HX.
  - injection HX as <-. constructor.
  - destruct (getitem df n) as [c|] eqn:Hc; simpl in HX; [|discriminate].
    destruct (getitems df names) as [cs|]; simpl in HX; [|discriminate].
    injection HX as <-. constructor; auto.
Qed.

Lemma mapM_Forall2 {A B : Type} (f : A -> result B) l l' :
  mapM f l = Ok l' -> Forall2 (fun x y => f x = Ok y) l l'.
Proof.
  revert l'. induction l as [|x l IH]; simpl; intros l' Hl.
  - injection Hl as <-. constructor.
  - destruct (f x) as [y|] eqn:Hy; simpl in Hl; [|discriminate].
    destruct (mapM f l) as [ys|]; simpl in Hl; [|discriminate].
    injection Hl as <-. constructor; auto.
Qed.

Lemma mem_In n l : mem n l = true <-> In n l.
Proof.
  unfold mem. rewrite existsb_exists. split.
  - intros (m & Hm & E). apply String.eqb_eq in E. now subst.
  - intros H. exists n. split; auto. apply String.eqb_refl.
Qed.

Lemma Forall2_compose {A B C : Type} (P : A -> B -> Prop) (Q : B -> C -> Prop)
  la lb lc :
  Forall2 P la lb -> Forall2 Q lb lc ->
  Forall2 (fun a c => exists b, P a b /\ Q b c) la lc.
Proof.
  intros H. revert lc.
  induction H; intros lc H'; inversion H'; subst; constructor; eauto.
Qed.

Lemma mapM_length {A B : Type} (f : A -> result B) l l' :
  mapM f l = Ok l' -> List.length l' = List.length l.
Proof.
  intros H. apply mapM_Forall2 in H. symmetry. eapply Forall2_length; eauto.
Qed.

Lemma standard_scale_length col :
  List.length (standard_scale col) = List.length col.
Proof.
  unfold standard_scale. destruct (present col); auto. apply length_map.
Qed.

Lemma minmax_scale_length col :
  List.length (minmax_scale col) = List.length col.
Proof.
  unfold minmax_scale. destruct (present col); auto. apply length_map.
Qed.

Lemma fit_transform_lengths `{Library} s X Y :
  fit_transform s X = Ok Y ->
  Forall2 (fun x y => List.length y = List.length x) X Y.
Proof.
  unfold fit_transform, check_array.
  destruct (mapM (mapM to_float) X) as [A|] eqn:HA; simpl; [|discriminate].
  intros HY.
  assert (HY' : Y = map (fun col =>
                  map of_float match s with
                               | StandardScaler => standard_scale col
                               | MinMaxScaler => minmax_scale col
                               end) A)
    by (destruct A as [|[|] ?]; first [discriminate HY | now injection HY]).
  subst Y. clear HY.
  apply mapM_Forall2 in HA.
  induction HA as [|x a X A Hx _ IH]; simpl; constructor; auto.
  rewrite length_map. apply mapM_length in Hx.
  destruct s; now rewrite ?standard_scale_length, ?minmax_scale_length.
Qed.

Lemma normalize_data_frame `{Library} df columns method df' :
  normalize_data df columns method = Ok df' ->
  unchanged_outside columns df df'.
Proof.
  unfold normalize_data.
  destruct (is_empty columns).
  { intros E. injection E as <-. apply unchanged_outside_refl. }
  destruct (if String.eqb method "standard" then Ok StandardScaler
            else if String.eqb method "minmax" then Ok MinMaxScaler
                 else Raise ValueError) as [s|]; simpl; [|discriminate].
  destruct (getitems df columns) as [X|] eqn:HX; simpl; [|discriminate].
  destruct (fit_transform s X) as [Y|] eqn:HY; simpl; [|discriminate].
  intros Hset.
  destruct (unchanged_outside_setitems columns columns Y df) as (df'' & E & Hu).
  - intros n. apply mem_In.
  - eapply Forall2_impl;
      [|exact (Forall2_compose _ _ _ _ _ (getitems_Forall2 _ _ _ HX)
                               (fit_transform_lengths _ _ _ HY))].
    intros n y (x & Hg & Hl). eauto.
  - congruence.
Qed.

Lemma assign_str_frame f df column df' :
  assign_str f df column = Ok df' -> unchanged_outside [column] df df'.
Proof.
  unfold assign_str, str_method.
  destruct (getitem df column) as [col|] eqn:Hg; simpl; [|discriminate].
  destruct (existsb is_text col); simpl; [|discriminate].
  intros E. injection E as <-.
  eapply unchanged_outside_setitem; eauto.
  - simpl. now rewrite String.eqb_refl.
  - apply length_map.
Qed.

Lemma clean_text_column_frame df column lower remove_space remove_special df' :
  clean_text_column df column lower remove_space remove_special = Ok df' ->
  unchanged_outside [column] df df'.
Proof.
  unfold clean_text_column.
  assert (step : forall (b : bool) f d d',
             (if b then assign_str f d column else Ok d) = Ok d' ->
             unchanged_outside [column] d d').
  { intros [] f d d' E; [now apply assign_str_frame in E|].
    injection E as <-. apply unchanged_outside_refl. }
  destruct (if lower then _ else _) as [d1|] eqn:E1; simpl; [|discriminate].
  destruct (if remove_space then _ else _) as [d2|] eqn:E2; simpl;
    [|discriminate].
  destruct (if remove_special then _ else _) as [d3|] eqn:E3; simpl;
    [|discriminate].
  intros E. injection E as <-.
  apply step in E1, E2, E3.
  eauto using unchanged_outside_trans.
Qed.

(** C10: a table returned by [normalize_data] differs from the table it
    was given in the listed columns only, and a table returned by
    [clean_text_column] in the named column only: the names and the order
    of the columns, the number of rows and every value of every other
    column are the same. *)
Theorem normalize_and_text_touch_named_columns_only `{Library} :
  (forall df columns method df',
      normalize_data df columns method = Ok df' ->
      unchanged_outside columns df df'
      /\ column_names df' = column_names df
      /\ nrows df' = nrows df
      /\ forall n, mem n columns = false -> getitem df' n = getitem df n)
  /\ (forall df column lower remove_space remove_special df',
         clean_text_column df column lower remove_space remove_special = Ok df' ->
         unchanged_outside [column] df df'
         /\ column_names df' = column_names df
         /\ nrows df' = nrows df
         /\ forall n, n <> column -> getitem df' n = getitem df n).
Proof.
  split.
  - intros df columns method df' E. apply normalize_data_frame in E.
    repeat split; eauto using unchanged_outside_names, unchanged_outside_nrows.
    intros n Hn. eapply unchanged_outside_other; eauto.
  - intros df column l s p df' E. apply clean_text_column_frame in E.
    repeat split; eauto using unchanged_outside_names, unchanged_outside_nrows.
    intros n Hn. eapply unchanged_outside_other; eauto.
    simpl. rewrite orb_false_r. apply String.eqb_neq. congruence.
Qed.

(** ** Missing values *)

Lemma update_columns_nil f df : update_columns f [] df = df.
Proof. unfold update_columns. simpl. apply map_id. Qed.

Lemma update_columns_ext f cols cols' df :
  (forall n, mem n cols = mem n cols') ->
  update_columns f cols df = update_columns f cols' df.
Proof.
  intros E. unfold update_columns. apply map_ext. intros nc. now rewrite E.
Qed.

Lemma update_columns_absent f n cols df :
  ~ In n (column_names df) ->
  update_columns f (n :: cols) df = update_columns f cols df.
Proof.
  intros Hn. unfold update_columns. apply map_ext_in. intros [m c] Hm.
  simpl. destruct (String.eqb m n) eqn:E; auto.
  apply String.eqb_eq in E. subst m.
  exfalso. apply Hn. unfold column_names. now apply (in_map fst) in Hm.
Qed.

Lemma setitem_update_columns f cols df n c :
  NoDup (column_names df) -> getitem df n = Ok c ->
  setitem (update_columns f cols df) n (f c) = update_columns f (n :: cols) df.
Proof.
  induction df as [|[m c0] df IH]; simpl; [discriminate|].
  intros Hnd Hg. inversion Hnd as [|? ? Hm Hnd']; subst.
  destruct (String.eqb m n) eqn:E.
  - apply String.eqb_eq in E. subst m. injection Hg as ->.
    fold (update_columns f cols df). fold (update_columns f (n :: cols) df).
    rewrite update_columns_absent by assumption.
    destruct (mem n cols); simpl; now rewrite String.eqb_refl.
  - fold (update_columns f cols df). fold (update_columns f (n :: cols) df).
    rewrite <- IH by assumption.
    destruct (mem m cols); simpl; now rewrite E.
Qed.

Lemma setitems_update_columns f df names X : forall cols,
  NoDup (column_names df) -> getitems df names = Ok X ->
  setitems (update_columns f cols df) names (map f X)
  = Ok (update_columns f (rev names ++ cols) df).
Proof.
  revert X. induction names as [|n names IH]; simpl; intros X cols Hnd HX.
  - now injection HX as <-.
  - destruct (getitem df n) as [c|] eqn:Hc; simpl in HX; [|discriminate].
    destruct (getitems df names) as [cs|] eqn:Hcs; simpl in HX; [|discriminate].
    injection HX as <-. simpl.
    rewrite setitem_update_columns by assumption.
    rewrite (IH cs) by auto. now rewrite <- app_assoc.
Qed.

Lemma getitems_present df names :
  incl names (column_names df) -> exists X, getitems df names = Ok X.
Proof.
  induction names as [|n names IH]; simpl; intros Hin; eauto.
  destruct IH as (X & ->); [intros m Hm; apply Hin; now right|].
  assert (Hn : In n (column_names df)) by (apply Hin; now left).
  assert (exists c, getitem df n = Ok c) as (c & ->); simpl; eauto.
  clear -Hn. induction df as [|[m c] df IH]; simpl in *; [tauto|].
  destruct (String.eqb m n) eqn:E; eauto.
  destruct Hn as [->|Hn]; auto. now rewrite String.eqb_refl in E.
Qed.

Lemma columns_with_null_present df :
  incl (columns_with_null df) (column_names df).
Proof.
  intros n. unfold columns_with_null, column_names.
  rewrite !in_map_iff. intros (nc & <- & H).
  apply filter_In in H. exists nc. tauto.
Qed.

Lemma is_empty_false {A : Type} (l : list A) : l <> [] -> is_empty l = false.
Proof. now destruct l. Qed.

(** Without a fill value the constant strategy raises as soon as a column
    is selected. *)
Lemma handle_missing_values_constant_unset `{Library} df columns :
  selected df columns <> [] ->
  handle_missing_values df "constant" columns None = Raise ValueError.
Proof.
  intros Hs. unfold handle_missing_values.
  now rewrite (is_empty_false _ Hs).
Qed.

(** C5, as the code has it: the constant strategy without a fill value
    raises [ValueError] whenever the selector resolves to at least one
    column; with a fill value, on a table of distinct column names whose
    selector names columns of the table, the result is the table in which
    the missing values of the selected columns, and nothing else, have
    been replaced by the fill value. *)
Theorem handle_missing_values_constant `{Library} df columns :
  (selected df columns <> [] ->
   handle_missing_values df "constant" columns None = Raise ValueError)
  /\ (forall value,
         NoDup (column_names df) ->
         incl (selected df columns) (column_names df) ->
         handle_missing_values df "constant" columns (Some value)
         = Ok (update_columns (fillna value) (selected df columns) df)).
Proof.
  split; [apply handle_missing_values_constant_unset|].
  intros value Hnd Hin. unfold handle_missing_values.
  destruct (is_empty (selected df columns)) eqn:E.
  { destruct (selected df columns); [|discriminate].
    now rewrite update_columns_nil. }
  cbn [String.eqb Ascii.eqb Bool.eqb].
  destruct (getitems_present _ _ Hin) as (X & HX). rewrite HX. cbn [bind].
  rewrite <- (update_columns_nil (fillna value) df) at 1.
  rewrite (setitems_update_columns _ _ _ X) by assumption.
  f_equal. apply update_columns_ext. intros n.
  rewrite app_nil_r. apply eq_iff_eq_true.
  rewrite !mem_In. symmetry. apply in_rev.
Qed.

Lemma getitems_raises df names e :
  getitems df names = Raise e -> e = KeyError.
Proof.
  induction names as [|n names IH]; simpl; [discriminate|].
  assert (Hn : forall e', getitem df n = Raise e' -> e' = KeyError).
  { clear. induction df as [|[m c] df IH]; simpl; intros e'.
    - congruence.
    - destruct (String.eqb m n); [discriminate|auto]. }
  destruct (getitem df n) as [c|e'] eqn:Hc; simpl.
  - destruct (getitems df names) as [cs|e']; simpl; [discriminate|].
    intros E. injection E as <-. auto.
  - intros E. injection E as <-. auto.
Qed.

(** C1, what the code does: with the strategy ['mode'] and at least one
    column selected, [handle_missing_values] fills nothing and raises:
    [KeyError] when a selected column is not in the table, and otherwise
    the [ValueError] with which [SimpleImputer] rejects the strategy name
    ['mode']. *)
Theorem handle_missing_values_mode_raises `{Library} df columns fill_value :
  selected df columns <> [] ->
  handle_missing_values df "mode" columns fill_value
  = match getitems df (selected df columns) with
    | Ok _ => Raise ValueError
    | Raise _ => Raise KeyError
    end.
Proof.
  intros Hs. unfold handle_missing_values.
  rewrite (is_empty_false _ Hs). cbn [String.eqb Ascii.eqb Bool.eqb].
  unfold imputation_of. cbn [String.eqb Ascii.eqb Bool.eqb].
  destruct (getitems df (selected df columns)) as [X|e] eqn:HX; simpl; auto.
  now rewrite (getitems_raises _ _ _ HX).
Qed.







(** The strategies ['mean'] and ['median'] on a numeric column. *)
Lemma handle_missing_values_mean_median `{Library} :
  handle_missing_values [("a", [Num 1; NaN; Num 3; Num 8])] "mean" None None
  = Ok [("a", [Num 1; Num 4; Num 3; Num 8])]
  /\ handle_missing_values [("a", [Num 1; NaN; Num 3; Num 8])] "median" None None
     = Ok [("a", [Num 1; Num 3; Num 3; Num 8])].
Proof.
  split.
  - unfold handle_missing_values. simpl.
    assert (Hm : mean [1; 3; 8] = 4) by (unfold mean, sum; simpl; lra).
    rewrite Hm. reflexivity.
  - unfold handle_missing_values. simpl.
    assert (Hm : median [1; 3; 8] = 3).
    { unfold median, sort. cbn [insert fold_right]. compare_numbers.
      reflexivity. }
    rewrite Hm. reflexivity.
Qed.

(** ** The orchestrator *)

Lemma mbind_ret_l {A B : Type} (a : A) (k : A -> M B) : mbind (ret a) k = k a.
Proof. unfold mbind, ret. simpl. now destruct (k a). Qed.

Lemma mbind_assoc {A B C : Type} (m : M A) (f : A -> M B) (g : B -> M C) :
  mbind (mbind m f) g = mbind m (fun a => mbind (f a) g).
Proof.
  destruct m as [log [a|e]]; simpl; auto.
  destruct (f a) as [log' [b|e]]; simpl; auto.
  now rewrite app_assoc.
Qed.

Lemma for_each_app {A S : Type} (l l' : list A) (body : S -> A -> M S) s :
  for_each (l ++ l') body s
  = (s' <~ for_each l body s ;; for_each l' body s').
Proof.
  revert s. induction l as [|x l IH]; intros s; cbn [app for_each].
  - now rewrite mbind_ret_l.
  - rewrite mbind_assoc.
    destruct (body s x) as [log [s'|e]]; simpl; auto.
    now rewrite IH.
Qed.

Lemma calls_app log log' : calls (log ++ log') = calls log ++ calls log'.
Proof. apply flat_map_app. Qed.

(** [import_data] prints and answers; it neither raises nor calls a
    cleaning function. *)
Lemma import_data_answers `{Library} filepath file_type :
  exists log df,
    import_data filepath file_type = (log, Ok df) /\ calls log = [].
Proof.
  unfold import_data.
  destruct (path_exists filepath); cbn [negb];
    [|do 2 eexists; split; reflexivity].
  set (t := match file_type with
            | Some t => t
            | None => str_lower (extension filepath)
            end).
  assert (Hread : forall read : string -> result DataFrame,
             exists log df,
               match read filepath with
               | Ok df => ret (Some df)
               | Raise EmptyDataError =>
                   _ <~ print (file_is_empty filepath) ;; ret None
               | Raise ParserError =>
                   _ <~ print (could_not_parse filepath) ;; ret None
               | Raise _ =>
                   _ <~ print (unexpected_import_error filepath) ;; ret None
               end = (log, Ok df) /\ calls log = []).
  { intros read. destruct (read filepath) as [df|[]];
      do 2 eexists; split; reflexivity. }
  destruct (String.eqb t "csv"); [apply Hread|].
  destruct (String.eqb t "json"); [apply Hread|].
  destruct (String.eqb t "parquet"); [apply Hread|].
  destruct (String.eqb t "xls" || String.eqb t "xlsx"); [apply Hread|].
  do 2 eexists; split; reflexivity.
Qed.

Lemma import_data_missing_path `{Library} filepath file_type :
  path_exists filepath = false ->
  import_data filepath file_type
  = ([Printed (file_not_found filepath)], Ok None).
Proof. intros E. unfold import_data. now rewrite E. Qed.

(** C7: when the import answers nothing, as it does for a path that does
    not exist, [clean_data] answers nothing either, and the import is all
    it has done: no cleaning function has been called. *)
Theorem clean_data_without_import `{Library} filepath cfg :
  (snd (import_data filepath None) = Ok None ->
   clean_data filepath cfg = (fst (import_data filepath None), Ok None)
   /\ calls (fst (clean_data filepath cfg)) = [])
  /\ (path_exists filepath = false ->
      clean_data filepath cfg = ([Printed (file_not_found filepath)], Ok None)).
Proof.
  assert (Hgen : snd (import_data filepath None) = Ok None ->
                 clean_data filepath cfg
                 = (fst (import_data filepath None), Ok None)
                 /\ calls (fst (clean_data filepath cfg)) = []).
  { intros Hnone.
    destruct (import_data_answers filepath None) as (log & df & E & Hcalls).
    unfold clean_data. rewrite E in *. simpl in Hnone.
    injection Hnone as ->. simpl. now rewrite app_nil_r. }
  split; [exact Hgen|].
  intros Hpath. pose proof (import_data_missing_path _ None Hpath) as E.
  destruct Hgen as [-> _]; now rewrite E.
Qed.

Lemma columns_with_null_nonempty df :
  existsb (fun nc => existsb isnull (snd nc)) df = true ->
  columns_with_null df <> [].
Proof.
  unfold columns_with_null. rewrite existsb_exists. intros (nc & Hin & Hnull).
  assert (Hf : In nc (filter (fun nc => existsb isnull (snd nc)) df))
    by (apply filter_In; auto).
  destruct (filter _ df); [contradiction|discriminate].
Qed.

(** C2: through [clean_data] the strategy ['constant'] raises on every
    imported table that has a missing value: the handler is called
    without a fill value, and nothing is called after it. *)
Theorem clean_data_constant_raises `{Library} filepath cfg log df :
  import_data filepath None = (log, Ok (Some df)) ->
  existsb (fun nc => existsb isnull (snd nc)) df = true ->
  strategy cfg = "constant" ->
  clean_data filepath cfg
  = (log ++ [Called step_handle_missing_values], Raise ValueError).
Proof.
  intros Himport Hnull Hstrategy.
  unfold clean_data. rewrite Himport, Hstrategy. cbn [mbind].
  rewrite handle_missing_values_constant_unset
    by (apply columns_with_null_nonempty, Hnull).
  reflexivity.
Qed.

(** ** Type conversion *)

Lemma convert_column_type_fails `{Library} df column to col e :
  getitem df column = Ok col -> astype to col = Raise e ->
  convert_column_type df column to
  = ([Printed (error_converting_column column to)], Ok df).
Proof.
  intros Hg Ha. unfold convert_column_type. now rewrite Hg; simpl; rewrite Ha.
Qed.

Lemma convert_column_type_succeeds `{Library} df column to col col' :
  getitem df column = Ok col -> astype to col = Ok col' ->
  convert_column_type df column to = ([], Ok (setitem df column col')).
Proof.
  intros Hg Ha. unfold convert_column_type. now rewrite Hg; simpl; rewrite Ha.
Qed.

Lemma convert_column_type_returns `{Library} df column to :
  exists log df',
    convert_column_type df column to = (log, Ok df') /\ calls log = [].
Proof.
  unfold convert_column_type.
  destruct (_ <- getitem df column ;; _) as [df'|e];
    do 2 eexists; split; reflexivity.
Qed.

Lemma convert_types_returns `{Library} types : forall df,
  exists log df',
    convert_types types df = (log, Ok df')
    /\ calls log = map (fun ct => step_convert_column_type (fst ct)) types.
Proof.
  unfold convert_types.
  induction types as [|[column to] types IH]; intros df; cbn [for_each].
  - do 2 eexists; split; reflexivity.
  - destruct (convert_column_type_returns df column to) as (l1 & df1 & E1 & C1).
    destruct (IH df1) as (l2 & df2 & E2 & C2).
    exists (Called (step_convert_column_type column) :: l1 ++ l2), df2.
    cbn [fst snd]. rewrite E1. cbn [call fst snd mbind]. rewrite E2.
    split; [reflexivity|].
    cbn [calls flat_map map fst app]. fold (calls (l1 ++ l2)).
    now rewrite calls_app, C1, C2.
Qed.

(** C6: [convert_column_type] never raises; a cast that fails is printed
    and leaves the whole table as it was, a cast that succeeds replaces
    the column; and the loop over the mapping calls the converter for
    every entry in turn, going on with the entries that follow a failure. *)
Theorem convert_column_type_failure_is_local `{Library} :
  (forall df column to,
      exists log df', convert_column_type df column to = (log, Ok df'))
  /\ (forall df column to col e,
         getitem df column = Ok col -> astype to col = Raise e ->
         convert_column_type df column to
         = ([Printed (error_converting_column column to)], Ok df))
  /\ (forall df column to col col',
         getitem df column = Ok col -> astype to col = Ok col' ->
         convert_column_type df column to = ([], Ok (setitem df column col')))
  /\ (forall types df,
         exists log df',
           convert_types types df = (log, Ok df')
           /\ calls log = map (fun ct => step_convert_column_type (fst ct)) types)
  /\ (forall df column to col e types,
         getitem df column = Ok col -> astype to col = Raise e ->
         convert_types ((column, to) :: types) df
         = (Called (step_convert_column_type column)
              :: Printed (error_converting_column column to)
              :: fst (convert_types types df),
            snd (convert_types types df))).
Proof.
  split; [|split; [|split; [|split]]].
  - intros df column to.
    destruct (convert_column_type_returns df column to) as (l & d & E & _).
    eauto.
  - intros. eapply convert_column_type_fails; eauto.
  - intros. eapply convert_column_type_succeeds; eauto.
  - intros. apply convert_types_returns.
  - intros df column to col e types Hg Ha.
    unfold convert_types. cbn [for_each fst snd].
    now rewrite (convert_column_type_fails _ _ _ _ _ Hg Ha).
Qed.

(** ** Outlier removal on several columns *)

Lemma remove_outliers_calls cols factor : forall df log df',
  remove_outliers cols factor df = (log, Ok df') ->
  calls log = map step_remove_outliers_iqr cols.
Proof.
  unfold remove_outliers.
  induction cols as [|c cols IH]; intros df log df'; cbn [for_each].
  - intros E. now injection E as <- _.
  - destruct (remove_outliers_iqr df c factor) as [df1|e];
      cbn [lift call fst snd mbind]; [|discriminate].
    destruct (for_each cols _ df1) as [log1 r] eqn:E1. cbn [fst snd].
    intros E. injection E as <- ->.
    cbn [calls flat_map map app]. fold (calls log1).
    f_equal. eapply IH; eauto.
Qed.

Lemma remove_outliers_at before column after factor df :
  remove_outliers (before ++ column :: after) factor df
  = (df1 <~ remove_outliers before factor df ;;
     df2 <~ call (step_remove_outliers_iqr column)
              (lift (col <- getitem df1 column ;;
                     bounds <- iqr_bounds col factor ;;
                     Ok (take_rows (map (within bounds) col) df1))) ;;
     remove_outliers after factor df2).
Proof. unfold remove_outliers. now rewrite for_each_app. Qed.

Lemma iqr_bounds_latitude :
  iqr_bounds [Num 10; Num 10; Num 10; Num 13; Num 20] 1.5
  = Ok (Some (5.5, 17.5))
  /\ iqr_bounds [Num 10; Num 10; Num 10; Num 13] 1.5
     = Ok (Some (8.875, 11.875)).
Proof.
  assert (H5 : sort [10; 10; 10; 13; 20] = [10; 10; 10; 13; 20]).
  { unfold sort. cbn [insert fold_right]. now compare_numbers. }
  assert (H4 : sort [10; 10; 10; 13] = [10; 10; 10; 13]).
  { unfold sort. cbn [insert fold_right]. now compare_numbers. }
  split; [evaluate_iqr_bounds H5|evaluate_iqr_bounds H4].
Qed.

Lemma remove_outliers_sightings :
  remove_outliers ["duration"; "latitude"] 1.5 sightings_table
  = ([Called (step_remove_outliers_iqr "duration");
      Called (step_remove_outliers_iqr "latitude")],
     Ok [("duration", [Num 1; Num 2; Num 3]);
         ("latitude", [Num 10; Num 10; Num 10])]).
Proof.
  unfold remove_outliers. cbn [for_each].
  rewrite (remove_outliers_iqr_drops_100 sightings_table "duration")
    by reflexivity.
  cbn [lift call mbind fst snd take_rows sightings_table map compress].
  unfold remove_outliers_iqr.
  cbn [getitem String.eqb Ascii.eqb Bool.eqb bind].
  rewrite (proj2 iqr_bounds_latitude). cbn [bind map within].
  compare_numbers. reflexivity.
Qed.

(** C3: the loop over the outlier columns calls [remove_outliers_iqr] once
    per column, in the order of the list, and the call for a column gets
    the table returned for the columns before it: its quartiles and bounds
    are those of the column as already filtered.  On the table of
    [sightings.csv] the bounds of [latitude] are 5.5 and 17.5, which would
    keep the row of 13; once the row of the duration 100 is gone they are
    8.875 and 11.875, and [clean_data] removes that row. *)
Theorem remove_outliers_is_cumulative :
  (forall before column after factor df,
      remove_outliers (before ++ column :: after) factor df
      = (df1 <~ remove_outliers before factor df ;;
         df2 <~ call (step_remove_outliers_iqr column)
                  (lift (col <- getitem df1 column ;;
                         bounds <- iqr_bounds col factor ;;
                         Ok (take_rows (map (within bounds) col) df1))) ;;
         remove_outliers after factor df2))
  /\ (forall cols factor df log df',
         remove_outliers cols factor df = (log, Ok df') ->
         calls log = map step_remove_outliers_iqr cols)
  /\ iqr_bounds [Num 10; Num 10; Num 10; Num 13; Num 20] 1.5
     = Ok (Some (5.5, 17.5))
  /\ within (Some (5.5, 17.5)) (Num 13) = true
  /\ iqr_bounds [Num 10; Num 10; Num 10; Num 13] 1.5
     = Ok (Some (8.875, 11.875))
  /\ clean_data (H := sample_library) "sightings.csv" sightings_config
     = ([Called step_handle_missing_values;
         Called (step_remove_outliers_iqr "duration");
         Called (step_remove_outliers_iqr "latitude");
         Called step_remove_duplicates],
        Ok (Some [("duration", [Num 1; Num 2; Num 3]);
                  ("latitude", [Num 10; Num 10; Num 10])])).
Proof.
  split; [exact remove_outliers_at|].
  split; [exact remove_outliers_calls|].
  split; [apply iqr_bounds_latitude|].
  split; [apply within_inclusive; lra|].
  split; [apply iqr_bounds_latitude|].
  unfold clean_data.
  change (import_data (H := sample_library) "sightings.csv" None)
    with (@ret (option DataFrame) (Some sightings_table)).
  rewrite mbind_ret_l.
  change (handle_missing_values (H := sample_library) sightings_table
            (strategy sightings_config) None None)
    with (@Ok DataFrame sightings_table).
  cbn [lift call mbind fst snd app sightings_config outlier_cols
       outlier_factor items].
  rewrite remove_outliers_sightings. reflexivity.
Qed.

(** ** The properties at work on the examples *)

Lemma handle_missing_values_mode_raises_on_a_column :
  selected [("a", [Num 1; NaN; Num 1])] None <> []
  /\ handle_missing_values (H := sample_library)
       [("a", [Num 1; NaN; Num 1])] "mode" None None
     = Raise ValueError.
Proof.
  split; [discriminate|].
  exact (handle_missing_values_mode_raises (H := sample_library)
           [("a", [Num 1; NaN; Num 1])] None None ltac:(discriminate)).
Defined.

Lemma clean_data_constant_raises_on_data_csv :
  import_data (H := sample_library) "data.csv" None
  = ([], Ok (Some sample_table))
  /\ existsb (fun nc => existsb isnull (snd nc)) sample_table = true
  /\ strategy constant_config = "constant"
  /\ clean_data (H := sample_library) "data.csv" constant_config
     = ([Called step_handle_missing_values], Raise ValueError).
Proof.
  do 3 (split; [reflexivity|]).
  exact (clean_data_constant_raises (H := sample_library) "data.csv"
           constant_config [] sample_table eq_refl eq_refl eq_refl).
Defined.

Lemma sample_table_names : NoDup (column_names sample_table).
Proof.
  repeat constructor; simpl; intuition discriminate.
Qed.

Lemma handle_missing_values_constant_on_sample_table :
  handle_missing_values (H := sample_library) sample_table "constant" None None
  = Raise ValueError
  /\ handle_missing_values (H := sample_library) sample_table "constant" None
       (Some (Num 0))
     = Ok [ ("age", [Num 31; Num 0; Num 47]);
            ("city", [Text " Oslo!"; Text "Rome"; Num 0]);
            ("score", [Num 0; Num 5; Num 10]) ].
Proof.
  split.
  - exact (proj1 (handle_missing_values_constant (H := sample_library)
                    sample_table None) ltac:(discriminate)).
  - exact (proj2 (handle_missing_values_constant (H := sample_library)
                    sample_table None)
             (Num 0) sample_table_names (columns_with_null_present _)).
Defined.

(** Without a column to work on, the constant strategy returns the table
    whether or not a fill value is given. *)
Lemma handle_missing_values_constant_nothing_selected :
  handle_missing_values (H := sample_library)
    [("age", [Num 31; Num 47])] "constant" None None
  = Ok [("age", [Num 31; Num 47])]
  /\ handle_missing_values (H := sample_library)
       sample_table "constant" (Some []) None
     = Ok sample_table.
Proof. split; reflexivity. Qed.

Lemma convert_types_on_sample_table :
  getitem sample_table "city" = Ok [Text " Oslo!"; Text "Rome"; NaN]
  /\ astype (Library := sample_library) dtype_float
       [Text " Oslo!"; Text "Rome"; NaN]
     = Raise ValueError
  /\ convert_types (H := sample_library)
       [("city", dtype_float); ("score", dtype_float)] sample_table
     = ([Called (step_convert_column_type "city");
         Printed (error_converting_column "city" dtype_float);
         Called (step_convert_column_type "score")],
        Ok sample_table).
Proof.
  do 2 (split; [reflexivity|]).
  exact (proj2 (proj2 (proj2 (proj2
           (convert_column_type_failure_is_local (H := sample_library)))))
           sample_table "city" dtype_float _ ValueError
           [("score", dtype_float)] eq_refl eq_refl).
Defined.

Lemma clean_data_without_import_on_a_missing_file :
  snd (import_data (H := sample_library) "missing.csv" None) = Ok None
  /\ path_exists (Library := sample_library) "missing.csv" = false
  /\ clean_data (H := sample_library) "missing.csv" default_config
     = ([Printed (file_not_found "missing.csv")], Ok None)
  /\ calls (fst (clean_data (H := sample_library) "missing.csv"
                   default_config)) = [].
Proof.
  do 2 (split; [reflexivity|]).
  exact (proj1 (clean_data_without_import (H := sample_library) "missing.csv"
                  default_config) eq_refl).
Defined.

Lemma remove_outliers_iqr_on_one_column :
  getitem [("x", [Num 1; Num 2; Num 3; Num 4; Num 100])] "x"
  = Ok [Num 1; Num 2; Num 3; Num 4; Num 100]
  /\ remove_outliers_iqr [("x", [Num 1; Num 2; Num 3; Num 4; Num 100])] "x" 1.5
     = Ok [("x", [Num 1; Num 2; Num 3; Num 4])].
Proof.
  split; [reflexivity|].
  exact (proj1 (proj2 (proj2 (proj2
           (remove_outliers_iqr_1_2_3_4_100
              [("x", [Num 1; Num 2; Num 3; Num 4; Num 100])] "x" eq_refl))))).
Defined.

Lemma normalize_data_on_sample_table :
  getitem sample_table "score" = Ok [Num 0; Num 5; Num 10]
  /\ normalize_data (H := sample_library) sample_table ["score"] "minmax"
     = Ok [ ("age", [Num 31; NaN; Num 47]);
            ("city", [Text " Oslo!"; Text "Rome"; NaN]);
            ("score", [Num 0; Num (1 / 2); Num 1]) ].
Proof.
  split; [reflexivity|].
  exact (proj1 (normalize_data_0_5_10 (H := sample_library)
                  sample_table "score" eq_refl)).
Defined.

Lemma touch_named_columns_only_on_sample_table :
  (normalize_data (H := sample_library) sample_table ["score"] "minmax"
   = Ok (setitem sample_table "score" [Num 0; Num (1 / 2); Num 1])
   /\ getitem (setitem sample_table "score" [Num 0; Num (1 / 2); Num 1]) "age"
      = getitem sample_table "age")
  /\ (clean_text_column sample_table "city" true true true
      = Ok (setitem sample_table "city" [Text "oslo"; Text "rome"; NaN])
      /\ getitem (setitem sample_table "city" [Text "oslo"; Text "rome"; NaN])
           "age"
         = getitem sample_table "age").
Proof.
  split; split.
  - now apply normalize_data_minmax_0_5_10.
  - refine (proj2 (proj2 (proj2
      (proj1 (normalize_and_text_touch_named_columns_only
                (H := sample_library))
         sample_table ["score"] "minmax" _ _))) "age" eq_refl).
    now apply normalize_data_minmax_0_5_10.
  - reflexivity.
  - refine (proj2 (proj2 (proj2
      (proj2 (normalize_and_text_touch_named_columns_only
                (H := sample_library))
         sample_table "city" true true true _ eq_refl))) "age" _).
    discriminate.
Defined.

Lemma remove_outliers_calls_on_sightings :
  remove_outliers ["duration"; "latitude"] 1.5 sightings_table
  = ([Called (step_remove_outliers_iqr "duration");
      Called (step_remove_outliers_iqr "latitude")],
     Ok [("duration", [Num 1; Num 2; Num 3]);
         ("latitude", [Num 10; Num 10; Num 10])])
  /\ calls [Called (step_remove_outliers_iqr "duration");
            Called (step_remove_outliers_iqr "latitude")]
     = map step_remove_outliers_iqr ["duration"; "latitude"].
Proof.
  split; [exact remove_outliers_sightings|].
  exact (proj1 (proj2 remove_outliers_is_cumulative) _ _ _ _ _
           remove_outliers_sightings).
Defined.

(** * Further properties of the cleaning functions *)

(** ** Dropping the rows with missing values *)

Lemma getitem_In df n c : getitem df n = Ok c -> In (n, c) df.
Proof.
  induction df as [|[m c0] df IH]; simpl; [discriminate|].
  destruct (String.eqb m n) eqn:E; auto.
  apply String.eqb_eq in E. subst m. intros H. injection H as ->. now left.
Qed.

Lemma getitems_lengths df names X :
  rectangular df -> getitems df names = Ok X ->
  Forall (fun col => List.length col = nrows df) X.
Proof.
  intros Hr HX. apply getitems_Forall2 in HX.
  induction HX as [|n col names X Hg _ IH]; constructor; auto.
  apply getitem_In in Hg. unfold rectangular in Hr.
  rewrite Forall_forall in Hr. exact (Hr _ Hg).
Qed.

Lemma zip_with_orb_length m l :
  List.length m = List.length l ->
  List.length (zip_with orb m l) = List.length m.
Proof.
  revert l. induction m as [|b m IH]; intros [|c l]; simpl; try discriminate;
    auto.
Qed.

Lemma zip_with_orb_nth m l i :
  List.length m = List.length l ->
  nth i (zip_with orb m l) false = nth i m false || nth i l false.
Proof.
  revert l i. induction m as [|b m IH]; intros [|c l] [|i]; simpl;
    try discriminate; auto.
Qed.

Lemma isnull_nth i col :
  nth i (map isnull col) false = isnull (nth i col (Num 0)).
Proof. exact (map_nth isnull col (Num 0) i). Qed.

(** The mask of the rows with a missing value, as [dropna] builds it. *)
Lemma missing_rows X : forall m,
  Forall (fun col => List.length col = List.length m) X ->
  let missing := fold_left (fun m col => zip_with orb m (map isnull col)) X m in
  List.length missing = List.length m
  /\ forall i, nth i missing false
               = nth i m false
                 || existsb (fun col => isnull (nth i col (Num 0))) X.
Proof.
  induction X as [|col X IH]; intros m HX; simpl.
  - split; auto. intros i. now rewrite orb_false_r.
  - inversion HX as [|? ? Hcol HX']; subst.
    assert (Hl : List.length (zip_with orb m (map isnull col)) = List.length m)
      by (apply zip_with_orb_length; now rewrite length_map).
    destruct (IH (zip_with orb m (map isnull col))) as [IHl IHn].
    { eapply Forall_impl; [|exact HX']. simpl. intros c Hc. congruence. }
    split; [congruence|].
    intros i. rewrite IHn, zip_with_orb_nth by now rewrite length_map.
    now rewrite isnull_nth, orb_assoc.
Qed.

Lemma compress_without_null keep : forall col,
  List.length keep = List.length col ->
  (forall i, (i < List.length col)%nat -> nth i keep false = true ->
             isnull (nth i col (Num 0)) = false) ->
  existsb isnull (compress keep col) = false.
Proof.
  induction keep as [|b keep IH]; intros [|c col]; simpl; try discriminate;
    auto.
  intros Hl Hnth. injection Hl as Hl.
  assert (Hrest : existsb isnull (compress keep col) = false).
  { apply IH; auto. intros i Hi. apply (Hnth (S i)). lia. }
  destruct b; auto. simpl. rewrite Hrest.
  now rewrite (Hnth 0%nat) by (simpl; auto; lia).
Qed.

Lemma existsb_false_In {A : Type} (f : A -> bool) l x :
  existsb f l = false -> In x l -> f x = false.
Proof.
  intros He Hin. destruct (f x) eqn:E; auto.
  assert (existsb f l = true) by (apply existsb_exists; eauto). congruence.
Qed.

Lemma getitems_In df names X n :
  getitems df names = Ok X -> In n names ->
  exists col, getitem df n = Ok col /\ In col X.
Proof.
  intros HX Hin. apply getitems_Forall2 in HX.
  induction HX as [|m c names X' Hg _ IH]; [contradiction|].
  destruct Hin as [->|Hin].
  - exists c. split; auto. now left.
  - destruct (IH Hin) as (col & ? & ?). exists col. split; auto. now right.
Qed.

(** What [dropna] keeps: the rows without a missing value in the columns
    of the subset. *)
Lemma dropna_keeps df subset X :
  rectangular df -> getitems df subset = Ok X ->
  exists keep,
    dropna df subset = Ok (take_rows keep df)
    /\ List.length keep = nrows df
    /\ (forall i, (i < nrows df)%nat ->
          nth i keep false
          = negb (existsb (fun col => isnull (nth i col (Num 0))) X))
    /\ Forall (fun col => existsb isnull (compress keep col) = false) X.
Proof.
  intros Hr HX.
  pose proof (getitems_lengths _ _ _ Hr HX) as HXl.
  destruct (missing_rows X (repeat false (nrows df))) as [Hl Hn].
  { eapply Forall_impl; [|exact HXl]. simpl. intros c Hc.
    now rewrite repeat_length. }
  set (missing := fold_left (fun m col => zip_with orb m (map isnull col)) X
                            (repeat false (nrows df))) in *.
  rewrite repeat_length in Hl.
  assert (Hkeep : forall i, (i < nrows df)%nat ->
            nth i (map negb missing) false
            = negb (existsb (fun col => isnull (nth i col (Num 0))) X)).
  { intros i Hi.
    rewrite (nth_indep _ false (negb false)) by (rewrite length_map; lia).
    rewrite map_nth, Hn, nth_repeat. reflexivity. }
  exists (map negb missing).
  split; [|split; [|split]]; auto.
  - unfold dropna. now rewrite HX.
  - now rewrite length_map.
  - rewrite Forall_forall. intros col HinX.
    rewrite Forall_forall in HXl. specialize (HXl _ HinX).
    apply compress_without_null; [rewrite length_map; congruence|].
    intros i Hi Hk. rewrite Hkeep in Hk by lia.
    apply negb_true_iff in Hk.
    exact (existsb_false_In (fun col => isnull (nth i col (Num 0))) X col
             Hk HinX).
Qed.

(** X1: the strategy ['drop'] removes exactly the rows that have a missing
    value in a selected column, in every column of the table, and leaves
    no missing value in the selected columns. *)
Theorem handle_missing_values_drop `{Library} df columns fill_value X :
  rectangular df ->
  selected df columns <> [] ->
  getitems df (selected df columns) = Ok X ->
  exists keep,
    handle_missing_values df "drop" columns fill_value = Ok (take_rows keep df)
    /\ List.length keep = nrows df
    /\ (forall i, (i < nrows df)%nat ->
          nth i keep false
          = negb (existsb (fun col => isnull (nth i col (Num 0))) X))
    /\ (forall n, In n (selected df columns) ->
          exists col', getitem (take_rows keep df) n = Ok col'
                       /\ existsb isnull col' = false).
Proof.
  intros Hr Hs HX.
  destruct (dropna_keeps _ _ _ Hr HX) as (keep & Hd & Hl & Hk & Hnull).
  exists keep. split; [|split; [|split]]; auto.
  - unfold handle_missing_values. now rewrite (is_empty_false _ Hs).
  - intros n Hin.
    destruct (getitems_In _ _ _ _ HX Hin) as (col & Hg & HinX).
    exists (compress keep col). rewrite getitem_take_rows, Hg. split; auto.
    rewrite Forall_forall in Hnull. auto.
Qed.

(** ** Strategies that cannot fill *)

Lemma mapM_raises {A B : Type} (f : A -> result B) (e0 : exn) l e :
  (forall x e', f x = Raise e' -> e' = e0) ->
  mapM f l = Raise e -> e = e0.
Proof.
  intros Hf. induction l as [|x l IH]; simpl; [discriminate|].
  destruct (f x) as [y|e'] eqn:Hx; simpl.
  - destruct (mapM f l) as [ys|e']; simpl; [discriminate|].
    intros E. injection E as <-. auto.
  - intros E. injection E as <-. eauto.
Qed.

Lemma mapM_fails {A B : Type} (f : A -> result B) l x e :
  In x l -> f x = Raise e -> exists e', mapM f l = Raise e'.
Proof.
  intros Hin Hx. induction l as [|y l IH]; [contradiction|]. simpl.
  destruct Hin as [->|Hin].
  - rewrite Hx. simpl. eauto.
  - destruct (f y); simpl; eauto.
    destruct (IH Hin) as (e' & ->). simpl. eauto.
Qed.

Lemma to_float_raises `{Library} c e : to_float c = Raise e -> e = ValueError.
Proof.
  destruct c as [x|s|]; simpl; try discriminate.
  destruct (float_of_str s); [discriminate|]. congruence.
Qed.

Lemma check_array_raises `{Library} X e :
  check_array X = Raise e -> e = ValueError.
Proof.
  unfold check_array.
  destruct (mapM (mapM to_float) X) as [A|e'] eqn:HA; simpl.
  - destruct A as [|[|] ?]; congruence.
  - intros E. injection E as <-.
    eapply mapM_raises; [|exact HA].
    intros col e''. apply mapM_raises. apply to_float_raises.
Qed.

Lemma setitems_length df names Y df' :
  setitems df names Y = Ok df' -> List.length Y = List.length names.
Proof.
  revert df Y. induction names as [|n names IH]; intros df [|y Y]; simpl;
    try discriminate; auto.
  intros E. f_equal. eauto.
Qed.

Lemma setitems_raises df names Y e :
  setitems df names Y = Raise e -> e = ValueError.
Proof.
  revert df Y. induction names as [|n names IH]; intros df [|y Y]; simpl;
    try discriminate; try congruence.
  apply IH.
Qed.

Lemma impute_length stat A :
  (List.length (impute stat A) <= List.length A)%nat
  /\ (forall a, In a A -> present a = [] ->
                (List.length (impute stat A) < List.length A)%nat).
Proof.
  unfold impute. induction A as [|a A [IHle IHlt]]; simpl.
  - split; [lia|contradiction].
  - rewrite length_app. split.
    + destruct (present a); simpl.
      * apply Nat.le_trans with (List.length A); [exact IHle|lia].
      * apply le_n_S. exact IHle.
    + intros a' [->|Hin] Hp.
      * rewrite Hp. simpl. apply Nat.lt_succ_r. exact IHle.
      * specialize (IHlt _ Hin Hp). destruct (present a); simpl.
        -- apply Nat.lt_lt_succ_r. exact IHlt.
        -- apply (proj1 (Nat.succ_lt_mono _ _)). exact IHlt.
Qed.

Lemma Forall2_In_left {A B : Type} (P : A -> B -> Prop) l l' x :
  Forall2 P l l' -> In x l -> exists y, In y l' /\ P x y.
Proof.
  induction 1 as [|a b l l' Hab _ IH]; [contradiction|].
  intros [->|Hin].
  - exists b. split; auto. now left.
  - destruct (IH Hin) as (y & ? & ?). exists y. split; auto. now right.
Qed.

Lemma selected_with_null df n col :
  getitem df n = Ok col -> existsb isnull col = true ->
  In n (columns_with_null df).
Proof.
  intros Hg Hnull. apply getitem_In in Hg.
  unfold columns_with_null. apply in_map_iff. exists (n, col). split; auto.
  apply filter_In. auto.
Qed.

(** What the imputer does with the columns the default selector picks,
    one of which holds a text that is no number, or nothing but missing
    values. *)
Lemma imputer_cannot_fill `{Library} df strategy n col :
  strategy = by_mean \/ strategy = by_median ->
  getitem df n = Ok col ->
  existsb isnull col = true ->
  (exists s, In (Text s) col /\ float_of_str s = None)
  \/ Forall (fun c => c = NaN) col ->
  (X <- getitems df (columns_with_null df) ;;
   Y <- SimpleImputer_fit_transform strategy X ;;
   setitems df (columns_with_null df) Y) = Raise ValueError.
Proof.
  intros Hstrategy Hg Hnull Hcol.
  pose proof (selected_with_null _ _ _ Hg Hnull) as Hin.
  destruct (getitems_present df (columns_with_null df)
              (columns_with_null_present df)) as (X & HX).
  rewrite HX. cbn [bind].
  destruct (getitems_In _ _ _ _ HX Hin) as (col0 & Hg0 & HinX).
  assert (col0 = col) by congruence. subst col0.
  assert (Hstat : forall stat,
             (Y <- (A <- check_array X ;; Ok (impute stat A)) ;;
              setitems df (columns_with_null df) Y) = Raise ValueError).
  { intros stat.
    destruct (check_array X) as [A|e] eqn:HA; cbn [bind];
      [|now rewrite (check_array_raises _ _ HA)].
    destruct (setitems df (columns_with_null df) (impute stat A))
      as [df'|e] eqn:Hset; [|now rewrite (setitems_raises _ _ _ _ Hset)].
    exfalso. apply setitems_length in Hset.
    unfold check_array in HA.
    destruct (mapM (mapM to_float) X) as [A'|] eqn:HA'; simpl in HA;
      [|discriminate].
    assert (A' = A) by (destruct A' as [|[|] ?]; congruence). subst A'.
    pose proof (mapM_length _ _ _ HA') as HlA.
    apply getitems_Forall2, Forall2_length in HX.
    apply mapM_Forall2 in HA'.
    destruct (Forall2_In_left _ _ _ _ HA' HinX) as (a & HinA & Ha).
    destruct (impute_length stat A) as [_ Hlt].
    destruct Hcol as [(s & Hs & Hnone)|Hall].
    - destruct (mapM_fails to_float col (Text s) ValueError Hs) as (e' & He').
      { simpl. now rewrite Hnone. }
      congruence.
    - assert (Hp : present a = []).
      { clear -Ha Hall. revert a Ha.
        induction Hall as [|c col -> _ IH]; simpl; intros a Ha.
        - now injection Ha as <-.
        - destruct (mapM to_float col) as [a'|]; simpl in Ha; [|discriminate].
          injection Ha as <-. simpl. now apply IH. }
      specialize (Hlt _ HinA Hp).
      rewrite Hset, HX, HlA in Hlt. exact (Nat.lt_irrefl _ Hlt). }
  destruct Hstrategy as [-> | ->]; apply Hstat.
Qed.

(** X2: with the default selector, the strategies ['mean'] and ['median']
    raise [ValueError] as soon as a column with a missing value holds a
    text that is no number, or holds missing values only; the same call
    made by [clean_data] raises too, and nothing is called after it. *)
Theorem handle_missing_values_cannot_fill `{Library} df fill_value n col :
  getitem df n = Ok col ->
  existsb isnull col = true ->
  (exists s, In (Text s) col /\ float_of_str s = None)
  \/ Forall (fun c => c = NaN) col ->
  handle_missing_values df "mean" None fill_value = Raise ValueError
  /\ handle_missing_values df "median" None fill_value = Raise ValueError
  /\ forall filepath cfg log,
       import_data filepath None = (log, Ok (Some df)) ->
       strategy cfg = "mean" \/ strategy cfg = "median" ->
       clean_data filepath cfg
       = (log ++ [Called step_handle_missing_values], Raise ValueError).
Proof.
  intros Hg Hnull Hcol.
  assert (Hs : is_empty (selected df None) = false).
  { apply is_empty_false. intros E.
    pose proof (selected_with_null _ _ _ Hg Hnull) as Hin.
    simpl in E. now rewrite E in Hin. }
  assert (Hmean : forall fv, handle_missing_values df "mean" None fv
                             = Raise ValueError).
  { intros fv. unfold handle_missing_values. rewrite Hs.
    exact (imputer_cannot_fill df by_mean n col (or_introl eq_refl)
             Hg Hnull Hcol). }
  assert (Hmedian : forall fv, handle_missing_values df "median" None fv
                               = Raise ValueError).
  { intros fv. unfold handle_missing_values. rewrite Hs.
    exact (imputer_cannot_fill df by_median n col (or_intror eq_refl)
             Hg Hnull Hcol). }
  split; [apply Hmean|]. split; [apply Hmedian|].
  intros filepath cfg log Himport Hstrategy.
  unfold clean_data. rewrite Himport. cbn [mbind].
  destruct Hstrategy as [-> | ->]; now rewrite ?Hmean, ?Hmedian.
Qed.

(** ** After a successful call nothing is missing *)

Lemma NoDup_setitem df n c :
  NoDup (column_names df) -> NoDup (column_names (setitem df n c)).
Proof.
  unfold column_names.
  induction df as [|[m c0] df IH]; simpl; intros Hnd.
  - constructor; [tauto|constructor].
  - inversion Hnd as [|? ? Hm Hnd']; subst.
    destruct (String.eqb m n) eqn:E; simpl; [now constructor|].
    constructor; auto.
    intros Hin. apply Hm. clear -Hin E.
    induction df as [|[m' c'] df IH]; simpl in *.
    + destruct Hin as [->|[]]. now rewrite String.eqb_refl in E.
    + destruct (String.eqb m' n); simpl in Hin; tauto.
Qed.

Lemma In_setitem df n c m c' :
  NoDup (column_names df) -> In (m, c') (setitem df n c) ->
  (m = n /\ c' = c) \/ (m <> n /\ In (m, c') df).
Proof.
  unfold column_names.
  induction df as [|[m0 c0] df IH]; simpl; intros Hnd Hin.
  - destruct Hin as [E|[]]. injection E as <- <-. now left.
  - inversion Hnd as [|? ? Hm Hnd']; subst.
    destruct (String.eqb m0 n) eqn:E.
    + apply String.eqb_eq in E. subst m0.
      destruct Hin as [E|Hin]; [injection E as <- <-; now left|].
      right. split; [|now right].
      intros ->. apply Hm. now apply (in_map fst) in Hin.
    + apply String.eqb_neq in E.
      destruct Hin as [E'|Hin]; [injection E' as <- <-; right; split; auto|].
      destruct (IH Hnd' Hin) as [?|[? ?]]; auto.
Qed.

(** What a table holds after [df[names] = Y]: under a name of [names] a
    column of [Y], elsewhere what it held before. *)
Lemma In_setitems names : forall Y df df' m c',
  NoDup (column_names df) -> setitems df names Y = Ok df' ->
  In (m, c') df' ->
  (mem m names = true /\ In c' Y) \/ (mem m names = false /\ In (m, c') df).
Proof.
  induction names as [|n names IH]; intros [|y Y] df df' m c' Hnd Hset Hin;
    simpl in Hset; try discriminate.
  - injection Hset as <-. now right.
  - destruct (IH Y _ _ m c' (NoDup_setitem _ n y Hnd) Hset Hin)
      as [[Hm Hy]|[Hm Hdf]].
    + left. simpl. rewrite Hm, orb_true_r. split; [reflexivity|now right].
    + destruct (In_setitem _ _ _ _ _ Hnd Hdf) as [[-> ->]|[Hne Hdf']].
      * left. simpl. rewrite String.eqb_refl. split; [reflexivity|now left].
      * right. simpl. rewrite Hm, orb_false_r. split; auto.
        now apply String.eqb_neq.
Qed.

Lemma In_getitem df n c :
  NoDup (column_names df) -> In (n, c) df -> getitem df n = Ok c.
Proof.
  unfold column_names.
  induction df as [|[m c0] df IH]; simpl; intros Hnd Hin; [contradiction|].
  inversion Hnd as [|? ? Hm Hnd']; subst.
  destruct Hin as [E|Hin].
  - injection E as -> ->. now rewrite String.eqb_refl.
  - destruct (String.eqb m n) eqn:E; auto.
    apply String.eqb_eq in E. subst m.
    exfalso. apply Hm. now apply (in_map fst) in Hin.
Qed.

Lemma columns_without_null df :
  (forall n c, In (n, c) df -> existsb isnull c = false) ->
  columns_with_null df = [].
Proof.
  unfold columns_with_null.
  induction df as [|[n c] df IH]; simpl; intros Hall; auto.
  rewrite (Hall n c) by now left.
  apply IH. intros n' c' Hin. apply (Hall n' c'). now right.
Qed.

Lemma not_selected_without_null df n c :
  In (n, c) df -> mem n (columns_with_null df) = false ->
  existsb isnull c = false.
Proof.
  intros Hin Hm. destruct (existsb isnull c) eqn:E; auto.
  assert (Hsel : In n (columns_with_null df)).
  { unfold columns_with_null. apply in_map_iff. exists (n, c). split; auto.
    apply filter_In. auto. }
  apply mem_In in Hsel. congruence.
Qed.

Lemma compress_null_free keep : forall col,
  existsb isnull col = false -> existsb isnull (compress keep col) = false.
Proof.
  induction keep as [|b keep IH]; intros [|c col]; simpl; auto.
  intros E. apply orb_false_iff in E as [Ec Ecol].
  destruct b; simpl; [rewrite Ec; simpl|]; apply IH; exact Ecol.
Qed.

Lemma impute_null_free stat A :
  Forall (fun y => existsb isnull y = false) (impute stat A).
Proof.
  unfold impute. rewrite Forall_forall. intros y Hy.
  apply in_flat_map in Hy as (a & _ & Hy).
  destruct (present a) as [|v vs]; [contradiction|].
  destruct Hy as [<-|[]].
  induction a as [|[x|] a IH]; simpl; auto.
Qed.

Lemma fillna_null_free value col :
  isnull value = false -> existsb isnull (fillna value col) = false.
Proof.
  intros Hv. unfold fillna.
  induction col as [|c col IH]; simpl; auto.
  rewrite IH. destruct (isnull c) eqn:E; now rewrite ?Hv, ?E.
Qed.

(** X4: after a successful call with the default selector no value of the
    table is missing (the fill value of the constant strategy not being
    itself the missing marker), so that a second call, with any strategy,
    returns the table as it is. *)
Theorem handle_missing_values_leaves_nothing_missing `{Library}
  df strategy fill_value df' :
  NoDup (column_names df) ->
  rectangular df ->
  fill_value <> Some NaN ->
  handle_missing_values df strategy None fill_value = Ok df' ->
  columns_with_null df' = []
  /\ forall strategy' fill_value',
       handle_missing_values df' strategy' None fill_value' = Ok df'.
Proof.
  intros Hnd Hr Hfill Hok.
  assert (Hnone : columns_with_null df' = []).
  { apply columns_without_null. intros n c Hin.
    unfold handle_missing_values in Hok. cbn [selected] in Hok.
    assert (Hset : forall Y,
               Forall (fun y => existsb isnull y = false) Y ->
               setitems df (columns_with_null df) Y = Ok df' ->
               existsb isnull c = false).
    { intros Y HY Hset.
      destruct (In_setitems _ _ _ _ _ _ Hnd Hset Hin) as [[_ Hy]|[Hm Hdf]].
      - rewrite Forall_forall in HY. auto.
      - eapply not_selected_without_null; eauto. }
    destruct (is_empty (columns_with_null df)) eqn:Hempty.
    { injection Hok as <-.
      destruct (columns_with_null df) eqn:E; [|discriminate].
      eapply not_selected_without_null; eauto. now rewrite E. }
    destruct (String.eqb strategy "drop").
    { destruct (getitems df (columns_with_null df)) as [X|] eqn:HX;
        [|unfold dropna in Hok; rewrite HX in Hok; discriminate].
      destruct (dropna_keeps _ _ _ Hr HX) as (keep & Hd & _ & _ & Hnull).
      rewrite Hd in Hok. injection Hok as <-.
      unfold take_rows in Hin. apply in_map_iff in Hin as ([n0 c0] & E & Hin0).
      simpl in E. injection E as <- <-.
      destruct (existsb isnull c0) eqn:Ec0;
        [|now apply compress_null_free].
      pose proof (In_getitem _ _ _ Hnd Hin0) as Hg.
      destruct (getitems_In _ _ _ _ HX (selected_with_null _ _ _ Hg Ec0))
        as (col & Hg' & HinX).
      assert (col = c0) by congruence. subst col.
      rewrite Forall_forall in Hnull. auto. }
    destruct (String.eqb strategy "constant").
    { destruct fill_value as [v|]; [|discriminate].
      destruct (getitems df (columns_with_null df)) as [X|]; [|discriminate].
      cbn [bind] in Hok. apply (Hset (map (fillna v) X)); auto.
      rewrite Forall_forall. intros y Hy.
      apply in_map_iff in Hy as (x & <- & _).
      apply fillna_null_free. destruct v; auto. congruence. }
    destruct (imputation_of strategy) as [imputer|]; [|discriminate].
    destruct (getitems df (columns_with_null df)) as [X|]; [|discriminate].
    cbn [bind] in Hok.
    destruct imputer; cbn [SimpleImputer_fit_transform] in Hok;
      try discriminate;
      (destruct (check_array X) as [A|]; [|discriminate]);
      cbn [bind] in Hok; eapply Hset; eauto using impute_null_free. }
  split; auto.
  intros strategy' fill_value'. unfold handle_missing_values.
  cbn [selected]. now rewrite Hnone.
Qed.

(** X5: a strategy other than the five names is refused with [ValueError]
    exactly when a column is selected; while nothing is selected the
    table is returned as it is, whatever the strategy and the fill
    value. *)
Theorem handle_missing_values_unknown_strategy `{Library}
  df strategy columns fill_value :
  (selected df columns = [] ->
   handle_missing_values df strategy columns fill_value = Ok df)
  /\ (selected df columns <> [] ->
      ~ In strategy ["drop"; "constant"; "mean"; "median"; "mode"] ->
      handle_missing_values df strategy columns fill_value = Raise ValueError).
Proof.
  unfold handle_missing_values. split.
  - now intros ->.
  - intros Hs Hunknown. rewrite (is_empty_false _ Hs).
    assert (Hneq : forall name,
               In name ["drop"; "constant"; "mean"; "median"; "mode"] ->
               String.eqb strategy name = false).
    { intros name Hin. apply String.eqb_neq. intros ->. contradiction. }
    unfold imputation_of.
    rewrite !Hneq by (simpl; tauto). reflexivity.
Qed.

(** ** What outlier removal returns *)








(** ** The quartiles are in order *)






Lemma quantile_empty p d : quantile [] p d = None.
Proof. reflexivity. Qed.





(** ** Normalization, column by column *)


















(** ** Text cleaning as one pass over the column *)













(** ** Type conversion leaves the other columns alone *)

Lemma setitem_names df n c c0 :
  getitem df n = Ok c0 -> column_names (setitem df n c) = column_names df.
Proof.
  unfold column_names.
  induction df as [|[m c1] df IH]; simpl; [discriminate|].
  destruct (String.eqb m n); simpl; auto.
  intros Hg. now rewrite IH.
Qed.

Lemma getitem_setitem_other df n m c :
  n <> m -> getitem (setitem df m c) n = getitem df n.
Proof.
  intros Hne. induction df as [|[k c1] df IH]; simpl.
  - apply String.eqb_neq in Hne. rewrite String.eqb_sym. now rewrite Hne.
  - destruct (String.eqb k m) eqn:E; simpl.
    + apply String.eqb_eq in E. subst k.
      assert (String.eqb m n = false) as ->; auto.
      apply String.eqb_neq. congruence.
    + destruct (String.eqb k n); auto.
Qed.

Lemma convert_column_type_frame `{Library} df column to :
  exists log df',
    convert_column_type df column to = (log, Ok df')
    /\ column_names df' = column_names df
    /\ forall n, n <> column -> getitem df' n = getitem df n.
Proof.
  unfold convert_column_type.
  destruct (getitem df column) as [col|] eqn:Hg; cbn [bind];
    [|do 2 eexists; split; [reflexivity|split; auto]].
  destruct (astype to col) as [col'|]; cbn [bind];
    do 2 eexists; (split; [reflexivity|split; auto]).
  - eapply setitem_names; eauto.
  - intros n Hn. now apply getitem_setitem_other.
Qed.

(** X12: the loop of conversions never raises, and the table it returns
    has the columns of the table it was given, in the same order; a column
    that the mapping does not name holds what it held before, whatever
    the casts do. *)
Theorem convert_types_frame `{Library} types : forall df,
  exists log df',
    convert_types types df = (log, Ok df')
    /\ column_names df' = column_names df
    /\ forall n, ~ In n (map fst types) -> getitem df' n = getitem df n.
Proof.
  unfold convert_types.
  induction types as [|[column to] types IH]; intros df; cbn [for_each].
  - do 2 eexists. split; [reflexivity|split; auto].
  - destruct (convert_column_type_frame df column to)
      as (l1 & df1 & E1 & Hn1 & Hg1).
    destruct (IH df1) as (l2 & df2 & E2 & Hn2 & Hg2).
    exists (Called (step_convert_column_type column) :: l1 ++ l2), df2.
    cbn [fst snd]. rewrite E1. cbn [call fst snd mbind]. rewrite E2.
    split; [reflexivity|]. split; [congruence|].
    intros n Hn. simpl in Hn.
    rewrite Hg2 by tauto. apply Hg1. intros ->. tauto.
Qed.

(** ** The order of the pipeline *)

Lemma mbind_Ok {A B : Type} (m : M A) (k : A -> M B) log b :
  mbind m k = (log, Ok b) ->
  exists l1 a l2, m = (l1, Ok a) /\ k a = (l2, Ok b) /\ log = l1 ++ l2.
Proof.
  destruct m as [l1 [a|e]]; simpl; [|discriminate].
  destruct (k a) as [l2 r] eqn:Ek. simpl. intros E. injection E as <- ->.
  eauto 6.
Qed.

Lemma call_Ok {A : Type} (s : step) (m : M A) log a :
  call s m = (log, Ok a) ->
  exists l, m = (l, Ok a) /\ log = Called s :: l.
Proof.
  destruct m as [l r]. unfold call. simpl. intros E. injection E as <- ->.
  eauto.
Qed.

Lemma lift_Ok {A : Type} (r : result A) log a :
  lift r = (log, Ok a) -> r = Ok a /\ log = [].
Proof. unfold lift. intros E. injection E as -> <-. auto. Qed.

Lemma clean_text_columns_calls cols lower remove_space remove_special :
  forall df log df',
    clean_text_columns cols lower remove_space remove_special df
    = (log, Ok df') ->
    calls log = map step_clean_text_column cols.
Proof.
  unfold clean_text_columns.
  induction cols as [|c cols IH]; intros df log df'; cbn [for_each].
  - intros E. now injection E as <- _.
  - destruct (clean_text_column df c lower remove_space remove_special)
      as [df1|e]; cbn [lift call fst snd mbind]; [|discriminate].
    destruct (for_each cols _ df1) as [log1 r] eqn:E1. cbn [fst snd].
    intros E. injection E as <- ->.
    cbn [calls flat_map map app]. fold (calls log1).
    f_equal. eapply IH; eauto.
Qed.

(** X13: when [clean_data] returns a table, the cleaning functions have
    been called in the fixed order of the pipeline: the missing-value
    handler, the outlier removal for each outlier column, the
    normalization if columns are given for it, the conversion for each
    entry of the mapping, the duplicate removal, the text cleaning for
    each text column.  And it answers no table only when the import
    does. *)
Theorem clean_data_calls_in_order `{Library} filepath cfg :
  (forall log df,
      clean_data filepath cfg = (log, Ok (Some df)) ->
      calls log
      = step_handle_missing_values
          :: map step_remove_outliers_iqr (items (outlier_cols cfg))
          ++ (if is_empty (items (normalize_cols cfg)) then []
              else [step_normalize_data])
          ++ map (fun ct => step_convert_column_type (fst ct))
                 (items (convert_type cfg))
          ++ step_remove_duplicates
          :: map step_clean_text_column (items (text_cols cfg)))
  /\ (snd (clean_data filepath cfg) = Ok None <->
      snd (import_data filepath None) = Ok None).
Proof.
  destruct (import_data_answers filepath None) as (l0 & o & E0 & C0).
  split.
  - intros log df Hok. unfold clean_data in Hok. rewrite E0 in Hok.
    destruct o as [df0|]; cbn [mbind] in Hok;
      [|simpl in Hok; discriminate].
    match type of Hok with
    | (_ ++ fst ?m, snd ?m) = _ => destruct m as [l r] eqn:Em
    end.
    cbn [fst snd] in Hok. injection Hok as <- ->.
    apply mbind_Ok in Em as (l1 & df1 & l1' & E1 & Em & ->).
    apply call_Ok in E1 as (l1a & E1 & ->).
    apply lift_Ok in E1 as [_ ->].
    apply mbind_Ok in Em as (l2 & df2 & l2' & E2 & Em & ->).
    apply remove_outliers_calls in E2.
    apply mbind_Ok in Em as (l3 & df3 & l3' & E3 & Em & ->).
    assert (C3 : calls l3 = if is_empty (items (normalize_cols cfg)) then []
                            else [step_normalize_data]).
    { destruct (is_empty (items (normalize_cols cfg))).
      - now injection E3 as <- _.
      - apply call_Ok in E3 as (l3a & E3 & ->).
        apply lift_Ok in E3 as [_ ->]. reflexivity. }
    apply mbind_Ok in Em as (l4 & df4 & l4' & E4 & Em & ->).
    destruct (convert_types_returns (items (convert_type cfg)) df3)
      as (l4a & df4a & E4a & C4).
    assert (l4a = l4) by congruence. subst l4a.
    apply mbind_Ok in Em as (l5 & df5 & l5' & E5 & Em & ->).
    apply call_Ok in E5 as (l5a & E5 & ->).
    apply lift_Ok in E5 as [_ ->].
    apply mbind_Ok in Em as (l6 & df6 & l6' & E6 & Em & ->).
    apply clean_text_columns_calls in E6.
    injection Em as <- _.
    rewrite !calls_app, C0, E2, C3, C4, E6. simpl.
    now rewrite app_nil_r.
  - unfold clean_data. rewrite E0. cbn [snd].
    destruct o as [df0|]; cbn [mbind snd]; [|simpl; tauto].
    split; [|discriminate].
    match goal with
    | |- snd ?m = _ -> _ => destruct m as [l [o'|e]] eqn:Em
    end; cbn [snd]; [|discriminate].
    intros E. injection E as ->. exfalso.
    repeat (apply mbind_Ok in Em as (? & ? & ? & _ & Em & _)).
    discriminate.
Qed.

(** * Properties of the import and of the export *)

(** X14: [import_data] never raises: it answers a table and prints
    nothing, or answers nothing and prints one message; for a path that
    does not exist it answers nothing. *)
Theorem import_data_outcome `{Library} filepath file_type :
  exists log df,
    import_data filepath file_type = (log, Ok df)
    /\ match df with
       | Some _ => log = []
       | None => exists m, log = [Printed m]
       end
    /\ (path_exists filepath = false -> df = None).
Proof.
  unfold import_data.
  destruct (path_exists filepath); cbn [negb];
    [|exists [Printed (file_not_found filepath)], None;
      split; [reflexivity|split; eauto]].
  set (t := match file_type with
            | Some t => t
            | None => str_lower (extension filepath)
            end).
  assert (Hread : forall read : string -> result DataFrame,
             exists log df,
               match read filepath with
               | Ok df => ret (Some df)
               | Raise EmptyDataError =>
                   _ <~ print (file_is_empty filepath) ;; ret None
               | Raise ParserError =>
                   _ <~ print (could_not_parse filepath) ;; ret None
               | Raise _ =>
                   _ <~ print (unexpected_import_error filepath) ;; ret None
               end = (log, Ok df)
               /\ match df with
                  | Some _ => log = []
                  | None => exists m, log = [Printed m]
                  end
               /\ (true = false -> df = None)).
  { intros read. destruct (read filepath) as [df|[]].
    1: exists [], (Some df); split; [reflexivity|split; [reflexivity|discriminate]].
    all: eexists [Printed _], None;
      (split; [reflexivity|split; [eauto|discriminate]]). }
  destruct (String.eqb t "csv"); [apply Hread|].
  destruct (String.eqb t "json"); [apply Hread|].
  destruct (String.eqb t "parquet"); [apply Hread|].
  destruct (String.eqb t "xls" || String.eqb t "xlsx"); [apply Hread|].
  exists [Printed (unsupported_file_type t)], None.
  split; [reflexivity|split; [eauto|discriminate]].
Qed.







(** X16: a file type given to [import_data] is compared as it is with
    ['csv'], ['json'], ['parquet'], ['xls'] and ['xlsx']: for a path that
    exists, any other name, ['excel'] and ['CSV'] among them, is reported
    as unsupported and nothing is answered. *)
Theorem import_data_refuses_other_types `{Library} filepath file_type :
  path_exists filepath = true ->
  ~ In file_type file_types ->
  import_data filepath (Some file_type)
  = ([Printed (unsupported_file_type file_type)], Ok None).
Proof.
  intros Hp Hother. unfold import_data. rewrite Hp. cbn [negb].
  assert (Hneq : forall name, In name file_types ->
                              String.eqb file_type name = false).
  { intros name Hin. apply String.eqb_neq. intros ->. contradiction. }
  rewrite !Hneq by (unfold file_types; simpl; tauto). reflexivity.
Qed.

Lemma has_key_setdefault key value kw :
  has_key key (setdefault key value kw) = true.
Proof.
  unfold setdefault. destruct (has_key key kw) eqn:E; auto.
  unfold has_key. rewrite existsb_app. simpl.
  now rewrite String.eqb_refl, orb_true_r.
Qed.

(** X17: [export_data] returns [True] having printed nothing, or [False]
    having printed one message; [True] only for one of the five type
    names and when the writer has not raised; with one of the five names
    a writer that raises is reported, and any other name, ['excel'] among
    them, is reported as unsupported. *)
Theorem export_data_outcome `{Writers} df filepath file_type index kw :
  (export_data df filepath file_type index kw = ([], true)
   /\ In file_type file_types)
  \/ (export_data df filepath file_type index kw
      = ([error_exporting filepath], false)
      /\ In file_type file_types)
  \/ (export_data df filepath file_type index kw
      = ([unsupported_export_type file_type], false)
      /\ ~ In file_type file_types).
Proof.
  unfold export_data, file_types.
  destruct (String.eqb file_type "csv") eqn:E1.
  { apply String.eqb_eq in E1. subst.
    destruct (to_csv _ _ _ _); simpl; tauto. }
  destruct (String.eqb file_type "json") eqn:E2.
  { apply String.eqb_eq in E2. subst.
    destruct (to_json _ _ _ _); simpl; tauto. }
  destruct (String.eqb file_type "parquet") eqn:E3.
  { apply String.eqb_eq in E3. subst.
    destruct (to_parquet _ _ _ _); simpl; tauto. }
  destruct (String.eqb file_type "xls") eqn:E4.
  { apply String.eqb_eq in E4. subst.
    destruct (to_excel _ _ _ _); simpl; tauto. }
  destruct (String.eqb file_type "xlsx") eqn:E5.
  { apply String.eqb_eq in E5. subst.
    destruct (to_excel _ _ _ _); simpl; tauto. }
  right. right. split; [reflexivity|].
  apply String.eqb_neq in E1, E2, E3, E4, E5. simpl. intuition congruence.
Qed.

(** X18: leaving [orient] out of a JSON export is passing ['records'] for
    it, and leaving [sheet_name] out of a spreadsheet export is passing
    ['Sheet1']; what the caller passes for them is passed on. *)
Theorem export_data_defaults `{Writers} df filepath index kw :
  (has_key "orient" kw = false ->
   export_data df filepath "json" index kw
   = export_data df filepath "json" index (kw ++ [("orient", "records")]))
  /\ (has_key "sheet_name" kw = false ->
      export_data df filepath "xlsx" index kw
      = export_data df filepath "xlsx" index
                    (kw ++ [("sheet_name", "Sheet1")])
      /\ export_data df filepath "xls" index kw
         = export_data df filepath "xls" index
                       (kw ++ [("sheet_name", "Sheet1")]))
  /\ (has_key "orient" kw = true ->
      export_data df filepath "json" index kw
      = match to_json df filepath index kw with
        | Ok _ => ([], true)
        | Raise _ => ([error_exporting filepath], false)
        end).
Proof.
  unfold export_data. cbn [String.eqb Ascii.eqb Bool.eqb orb].
  split; [|split].
  - intros E.
    assert (E' : setdefault "orient" "records" (kw ++ [("orient", "records")])
                 = setdefault "orient" "records" kw).
    { unfold setdefault at 1.
      replace (has_key "orient" (kw ++ [("orient", "records")])) with true.
      - unfold setdefault. now rewrite E.
      - unfold has_key. rewrite existsb_app. simpl. now rewrite orb_true_r. }
    now rewrite E'.
  - intros E.
    assert (E' : setdefault "sheet_name" "Sheet1"
                   (kw ++ [("sheet_name", "Sheet1")])
                 = setdefault "sheet_name" "Sheet1" kw).
    { unfold setdefault at 1.
      replace (has_key "sheet_name" (kw ++ [("sheet_name", "Sheet1")]))
        with true.
      - unfold setdefault. now rewrite E.
      - unfold has_key. rewrite existsb_app. simpl. now rewrite orb_true_r. }
    now rewrite E'.
  - intros E. unfold setdefault. now rewrite E.
Qed.

(** * Outlier removal at the edges *)






Lemma compress_all {A : Type} (f : A -> bool) (l : list A) :
  Forall (fun x => f x = true) l -> compress (map f l) l = l.
Proof. induction 1 as [|x l Hx _ IH]; simpl; auto. now rewrite Hx, IH. Qed.





(** * Filling touches the selected columns only *)

Lemma impute_all_kept stat A :
  List.length (impute stat A) = List.length A ->
  impute stat A
  = map (fun a => map (fun o => match o with
                                | Some x => Num x
                                | None => Num (stat (present a))
                                end) a) A.
Proof.
  intros Hl.
  assert (Hall : Forall (fun a => present a <> []) A).
  { rewrite Forall_forall. intros a Ha Hp.
    destruct (impute_length stat A) as [_ Hlt].
    specialize (Hlt _ Ha Hp). rewrite Hl in Hlt.
    exact (Nat.lt_irrefl _ Hlt). }
  clear Hl. unfold impute.
  induction Hall as [|a A Ha _ IH]; simpl; auto.
  rewrite IH. destruct (present a); [contradiction|reflexivity].
Qed.

Lemma Forall2_map_r {A B C : Type} (P : A -> C -> Prop) (f : B -> C) l l' :
  Forall2 (fun a b => P a (f b)) l l' -> Forall2 P l (map f l').
Proof. induction 1; simpl; constructor; auto. Qed.

(** X20: with a strategy other than ['drop'], the table
    [handle_missing_values] returns differs from the table it was given
    in the selected columns only: the names and the order of the columns,
    the number of rows and every value of every other column are the
    same. *)
Theorem handle_missing_values_frame `{Library}
  df strategy columns fill_value df' :
  strategy <> "drop" ->
  handle_missing_values df strategy columns fill_value = Ok df' ->
  unchanged_outside (selected df columns) df df'
  /\ column_names df' = column_names df
  /\ nrows df' = nrows df.
Proof.
  intros Hdrop Hok.
  assert (Hu : unchanged_outside (selected df columns) df df').
  { unfold handle_missing_values in Hok.
    destruct (is_empty (selected df columns)).
    { injection Hok as <-. apply unchanged_outside_refl. }
    apply String.eqb_neq in Hdrop. rewrite Hdrop in Hok.
    assert (Hset : forall X Y,
               getitems df (selected df columns) = Ok X ->
               Forall2 (fun x y => List.length y = List.length x) X Y ->
               setitems df (selected df columns) Y = Ok df' ->
               unchanged_outside (selected df columns) df df').
    { intros X Y HX HXY Hset.
      destruct (unchanged_outside_setitems (selected df columns)
                  (selected df columns) Y df) as (df'' & E & Hu).
      - intros n. apply mem_In.
      - eapply Forall2_impl;
          [|exact (Forall2_compose _ _ _ _ _ (getitems_Forall2 _ _ _ HX) HXY)].
        intros n y (x & Hg & Hl). eauto.
      - congruence. }
    destruct (String.eqb strategy "constant").
    { destruct fill_value as [v|]; [|discriminate].
      destruct (getitems df (selected df columns)) as [X|] eqn:HX;
        [|discriminate].
      cbn [bind] in Hok. eapply Hset; eauto.
      apply Forall2_map_r. clear. induction X; constructor; auto.
      unfold fillna. apply length_map. }
    destruct (imputation_of strategy) as [imputer|]; [|discriminate].
    destruct (getitems df (selected df columns)) as [X|] eqn:HX;
      [|discriminate].
    cbn [bind] in Hok.
    assert (Hstat : forall stat,
               (Y <- (A <- check_array X ;; Ok (impute stat A)) ;;
                setitems df (selected df columns) Y) = Ok df' ->
               unchanged_outside (selected df columns) df df').
    { intros stat Hstat.
      destruct (check_array X) as [A|] eqn:HA; [|discriminate].
      cbn [bind] in Hstat.
      pose proof (setitems_length _ _ _ _ Hstat) as Hl.
      unfold check_array in HA.
      destruct (mapM (mapM to_float) X) as [A'|] eqn:HA'; simpl in HA;
        [|discriminate].
      assert (A' = A) by (destruct A' as [|[|] ?]; congruence). subst A'.
      pose proof (mapM_length _ _ _ HA') as HlA.
      pose proof (Forall2_length (getitems_Forall2 _ _ _ HX)) as HlX.
      rewrite impute_all_kept in Hstat
        by (rewrite Hl, HlX; symmetry; exact HlA).
      eapply Hset; eauto.
      apply Forall2_map_r. apply mapM_Forall2 in HA'.
      eapply Forall2_impl; [|exact HA'].
      intros x a Hxa. simpl. rewrite length_map.
      now apply mapM_length in Hxa. }
    destruct imputer; cbn [SimpleImputer_fit_transform] in Hok;
      [eapply Hstat; eauto|eapply Hstat; eauto|discriminate]. }
  split; [exact Hu|].
  split; [eapply unchanged_outside_names|eapply unchanged_outside_nrows]; eauto.
Qed.

(** * Min-max normalization, twice *)















(** * Standard normalization, twice *)






(** * The further properties at work on the examples *)

Lemma sample_table_rectangular : rectangular sample_table.
Proof. repeat constructor. Qed.


Lemma handle_missing_values_drop_on_sample_table :
  rectangular sample_table
  /\ selected sample_table None <> []
  /\ getitems sample_table (selected sample_table None)
     = Ok [[Num 31; NaN; Num 47]; [Text " Oslo!"; Text "Rome"; NaN]]
  /\ exists keep,
       handle_missing_values (H := sample_library) sample_table "drop" None None
       = Ok (take_rows keep sample_table)
       /\ List.length keep = 3%nat.
Proof.
  split; [exact sample_table_rectangular|].
  split; [discriminate|]. split; [reflexivity|].
  destruct (handle_missing_values_drop (H := sample_library) sample_table
              None None _ sample_table_rectangular ltac:(discriminate)
              eq_refl) as (keep & E & Hl & _).
  exists keep. split; [exact E|exact Hl].
Defined.

Lemma handle_missing_values_cannot_fill_sample_table :
  getitem sample_table "city" = Ok [Text " Oslo!"; Text "Rome"; NaN]
  /\ existsb isnull [Text " Oslo!"; Text "Rome"; NaN] = true
  /\ In (Text "Rome") [Text " Oslo!"; Text "Rome"; NaN]
  /\ float_of_str (Library := sample_library) "Rome" = None
  /\ handle_missing_values (H := sample_library) sample_table "mean" None None
     = Raise ValueError.
Proof.
  split; [reflexivity|]. split; [reflexivity|].
  split; [simpl; tauto|]. split; [reflexivity|].
  refine (proj1 (handle_missing_values_cannot_fill (H := sample_library)
                   sample_table None "city" _ eq_refl eq_refl _)).
  left. exists "Rome". split; [simpl; tauto|reflexivity].
Defined.


Lemma handle_missing_values_leaves_nothing_missing_in_sample_table :
  NoDup (column_names sample_table)
  /\ rectangular sample_table
  /\ Some (Text "?") <> Some NaN
  /\ handle_missing_values (H := sample_library) sample_table "constant" None
       (Some (Text "?"))
     = Ok [ ("age", [Num 31; Text "?"; Num 47]);
            ("city", [Text " Oslo!"; Text "Rome"; Text "?"]);
            ("score", [Num 0; Num 5; Num 10]) ]
  /\ columns_with_null
       [ ("age", [Num 31; Text "?"; Num 47]);
         ("city", [Text " Oslo!"; Text "Rome"; Text "?"]);
         ("score", [Num 0; Num 5; Num 10]) ] = [].
Proof.
  split; [exact sample_table_names|].
  split; [exact sample_table_rectangular|].
  split; [discriminate|]. split; [reflexivity|].
  exact (proj1 (handle_missing_values_leaves_nothing_missing
                  (H := sample_library) sample_table "constant"
                  (Some (Text "?")) _ sample_table_names
                  sample_table_rectangular ltac:(discriminate) eq_refl)).
Defined.

Lemma handle_missing_values_unknown_strategy_on_sample_table :
  selected sample_table None <> []
  /\ ~ In "average" ["drop"; "constant"; "mean"; "median"; "mode"]
  /\ handle_missing_values (H := sample_library) sample_table "average" None
       None
     = Raise ValueError.
Proof.
  assert (Hs : selected sample_table None <> []) by discriminate.
  assert (Hu : ~ In "average" ["drop"; "constant"; "mean"; "median"; "mode"])
    by (simpl; intuition discriminate).
  split; [exact Hs|]. split; [exact Hu|].
  exact (proj2 (handle_missing_values_unknown_strategy (H := sample_library)
                  sample_table "average" None None) Hs Hu).
Defined.






Lemma convert_types_frame_on_sample_table :
  ~ In "age" (map fst [("city", dtype_float); ("score", dtype_float)])
  /\ exists log df',
       convert_types (H := sample_library)
         [("city", dtype_float); ("score", dtype_float)] sample_table
       = (log, Ok df')
       /\ getitem df' "age" = getitem sample_table "age".
Proof.
  assert (Hn : ~ In "age" (map fst [("city", dtype_float);
                                    ("score", dtype_float)]))
    by (simpl; intuition discriminate).
  split; [exact Hn|].
  destruct (convert_types_frame (H := sample_library)
              [("city", dtype_float); ("score", dtype_float)] sample_table)
    as (log & df' & E & _ & Hg).
  exists log, df'. split; [exact E|exact (Hg _ Hn)].
Defined.

Lemma clean_data_calls_in_order_on_data_csv :
  clean_data (H := sample_library) "data.csv" drop_config
  = ([Called step_handle_missing_values; Called step_remove_duplicates;
      Called (step_clean_text_column "city")],
     Ok (Some [("age", [Num 31]); ("city", [Text "oslo"]); ("score", [Num 0])]))
  /\ calls [Called step_handle_missing_values; Called step_remove_duplicates;
            Called (step_clean_text_column "city")]
     = [step_handle_missing_values; step_remove_duplicates;
        step_clean_text_column "city"].
Proof.
  split; [reflexivity|].
  exact (proj1 (clean_data_calls_in_order (H := sample_library) "data.csv"
                  drop_config) _ _ eq_refl).
Defined.

Lemma import_data_outcome_on_a_missing_file :
  path_exists (Library := sample_library) "missing.csv" = false
  /\ exists log df,
       import_data (H := sample_library) "missing.csv" None = (log, Ok df)
       /\ df = None.
Proof.
  split; [reflexivity|].
  destruct (import_data_outcome (H := sample_library) "missing.csv" None)
    as (log & df & E & _ & Hnone).
  exists log, df. split; [exact E|exact (Hnone eq_refl)].
Defined.


Lemma import_data_refuses_excel :
  path_exists (Library := sample_library) "data.csv" = true
  /\ ~ In "excel" file_types
  /\ import_data (H := sample_library) "data.csv" (Some "excel")
     = ([Printed (unsupported_file_type "excel")], Ok None).
Proof.
  assert (Hn : ~ In "excel" file_types)
    by (unfold file_types; simpl; intuition discriminate).
  split; [reflexivity|]. split; [exact Hn|].
  exact (import_data_refuses_other_types (H := sample_library) "data.csv"
           "excel" eq_refl Hn).
Defined.

Lemma export_data_defaults_on_sample_table :
  has_key "orient" [("indent", "2")] = false
  /\ export_data (H := sample_writers) sample_table "out.json" "json" false
       [("indent", "2")]
     = export_data (H := sample_writers) sample_table "out.json" "json" false
         [("indent", "2"); ("orient", "records")].
Proof.
  split; [reflexivity|].
  exact (proj1 (export_data_defaults (H := sample_writers) sample_table
                  "out.json" false [("indent", "2")]) eq_refl).
Defined.


Lemma handle_missing_values_frame_on_sample_table :
  "constant" <> "drop"
  /\ handle_missing_values (H := sample_library) sample_table "constant"
       (Some ["age"]) (Some (Num 0))
     = Ok (setitem sample_table "age" [Num 31; Num 0; Num 47])
  /\ unchanged_outside ["age"] sample_table
       (setitem sample_table "age" [Num 31; Num 0; Num 47]).
Proof.
  split; [discriminate|]. split; [reflexivity|].
  exact (proj1 (handle_missing_values_frame (H := sample_library) sample_table
                  "constant" (Some ["age"]) (Some (Num 0)) _
                  ltac:(discriminate) eq_refl)).
Defined.

